(** * fdb2xml: Firebird database to flat XML

    A shallow embedding of [fdb2xml.py] and the properties of its type
    mapper, value formatter, document assembler and serializer.

    Conventions of the embedding:
    - a Python [str] is the list of its Unicode code points ([pystr]);
    - a Python [bytes] is a [list byte];
    - a Python [int] is a [Z]; a value that is an [int] or [None] is an
      [option Z];
    - a Python [dict] keeps insertion order and is an association list with
      unique keys ([dict_set] overwrites in place, as Python does);
    - an [xml.etree.ElementTree.Element] is a tree of [element] records;
      code that mutates a parent element is written in state-passing style
      and returns the updated parent. *)

From Stdlib Require Import ZArith NArith List String Ascii Bool Lia.
From Stdlib Require Import DecimalString.
Import ListNotations.

Local Open Scope list_scope.
Set Warnings "-register-all".

(* ------------------------------------------------------------------ *)
(** * Python strings *)
(* ------------------------------------------------------------------ *)

(** A code point, [0 .. 0x10FFFF] in a well-formed Python string. *)
Definition codepoint := N.

Definition pystr := list codepoint.

(** An ASCII literal of the source, as a Python string. *)
Definition lit (s : string) : pystr :=
  map N_of_ascii (list_ascii_of_string s).

Definition pystr_eqb (a b : pystr) : bool :=
  if list_eq_dec N.eq_dec a b then true else false.

(** [str(n)] for an [int]: decimal digits with a leading minus sign. *)
Definition str_int (z : Z) : pystr :=
  lit (NilZero.string_of_int (Z.to_int z)).

(** [f"{x}"] for a value that is an [int] or [None]. *)
Definition fmt_int (x : option Z) : pystr :=
  match x with
  | Some z => str_int z
  | None => lit "None"
  end.

(** [x or 0] for a value that is an [int] or [None]. *)
Definition or0 (x : option Z) : Z :=
  match x with
  | Some z => z
  | None => 0%Z
  end.

(** Truth value of an [int] or [None]. *)
Definition truthy (x : option Z) : bool :=
  match x with
  | Some z => negb (z =? 0)%Z
  | None => false
  end.

(** [x == k] for an [int] or [None] [x] and an [int] literal [k]. *)
Definition eq_int (x : option Z) (k : Z) : bool :=
  match x with
  | Some z => (z =? k)%Z
  | None => false
  end.

(** [x in (k1, k2, ...)]. *)
Definition in_ints (x : option Z) (ks : list Z) : bool :=
  existsb (eq_int x) ks.

(* ------------------------------------------------------------------ *)
(** * Firebird native type mapping *)
(* ------------------------------------------------------------------ *)

Definition get_fb_type (field_type field_sub_type field_length
                        field_precision field_scale char_length : option Z)
  : pystr :=
  let field_sub_type := or0 field_sub_type in
  let field_precision := or0 field_precision in
  let field_scale := or0 field_scale in
  if in_ints field_type [7; 8; 16]%Z
     && existsb (Z.eqb field_sub_type) [1; 2]%Z then
    let t := if (field_sub_type =? 1)%Z then lit "NUMERIC" else lit "DECIMAL" in
    t ++ lit "(" ++ str_int field_precision ++ lit ","
      ++ str_int (- field_scale) ++ lit ")"
  else if eq_int field_type 7 then lit "SMALLINT"
  else if eq_int field_type 8 then lit "INTEGER"
  else if eq_int field_type 16 then lit "BIGINT"
  else if eq_int field_type 10 then lit "FLOAT"
  else if eq_int field_type 27 then lit "DOUBLE PRECISION"
  else if eq_int field_type 12 then lit "DATE"
  else if eq_int field_type 13 then lit "TIME"
  else if eq_int field_type 35 then lit "TIMESTAMP"
  else if eq_int field_type 14 then
    let n := if truthy char_length then char_length else field_length in
    lit "CHAR(" ++ fmt_int n ++ lit ")"
  else if in_ints field_type [37; 40]%Z then
    let n := if truthy char_length then char_length else field_length in
    lit "VARCHAR(" ++ fmt_int n ++ lit ")"
  else if eq_int field_type 261 then
    if (field_sub_type =? 0)%Z then lit "BLOB SUB_TYPE BINARY"
    else if (field_sub_type =? 1)%Z then lit "BLOB SUB_TYPE TEXT"
    else lit "BLOB SUB_TYPE " ++ str_int field_sub_type
  else lit "VARCHAR(255) /* unknown fb type " ++ fmt_int field_type ++ lit " */".

(** The native codes some rule of [get_fb_type] names. *)
Definition recognized_codes : list Z :=
  [7; 8; 16; 10; 27; 12; 13; 35; 14; 37; 40; 261]%Z.

(* ------------------------------------------------------------------ *)
(** * The limit on converting an integer to text *)
(* ------------------------------------------------------------------ *)







(* ------------------------------------------------------------------ *)
(** * Bytes, UTF-8 and base64 *)
(* ------------------------------------------------------------------ *)

Definition bytes := list Byte.byte.

(** The byte of value [n], for [n < 256]. *)
Definition byte_of (n : N) : Byte.byte :=
  match Byte.of_N n with
  | Some b => b
  | None => Byte.x00
  end.

(** A continuation byte, [0x80 .. 0xBF]. *)
Definition is_cont (c : N) : bool := ((0x80 <=? c) && (c <? 0xC0))%N.

(** A UTF-16 surrogate, which no UTF-8 sequence may encode. *)
Definition is_surrogate (c : N) : bool := ((0xD800 <=? c) && (c <? 0xE000))%N.

(** [val.decode("utf-8")] with the default strict error handler: [None]
    stands for [UnicodeDecodeError]. The decoder rejects stray
    continuation bytes, truncated sequences, overlong forms, surrogates
    and code points above [0x10FFFF]. *)
Fixpoint utf8_decode (bs : bytes) : option pystr :=
  match bs with
  | [] => Some []
  | b0 :: t0 =>
    let c0 := Byte.to_N b0 in
    if (c0 <? 0x80)%N then option_map (cons c0) (utf8_decode t0)
    else if (c0 <? 0xC2)%N then None
    else if (c0 <? 0xE0)%N then
      match t0 with
      | b1 :: t1 =>
        let c1 := Byte.to_N b1 in
        let cp := ((c0 - 0xC0) * 64 + (c1 - 0x80))%N in
        if is_cont c1 then option_map (cons cp) (utf8_decode t1) else None
      | _ => None
      end
    else if (c0 <? 0xF0)%N then
      match t0 with
      | b1 :: b2 :: t2 =>
        let c1 := Byte.to_N b1 in
        let c2 := Byte.to_N b2 in
        let cp := ((c0 - 0xE0) * 4096 + (c1 - 0x80) * 64 + (c2 - 0x80))%N in
        if is_cont c1 && is_cont c2 && (0x800 <=? cp)%N && negb (is_surrogate cp)
        then option_map (cons cp) (utf8_decode t2) else None
      | _ => None
      end
    else if (c0 <? 0xF5)%N then
      match t0 with
      | b1 :: b2 :: b3 :: t3 =>
        let c1 := Byte.to_N b1 in
        let c2 := Byte.to_N b2 in
        let c3 := Byte.to_N b3 in
        let cp := ((c0 - 0xF0) * 262144 + (c1 - 0x80) * 4096
                   + (c2 - 0x80) * 64 + (c3 - 0x80))%N in
        if is_cont c1 && is_cont c2 && is_cont c3
           && (0x10000 <=? cp)%N && (cp <? 0x110000)%N
        then option_map (cons cp) (utf8_decode t3) else None
      | _ => None
      end
    else None
  end.

(** The UTF-8 encoding of one Unicode scalar value (RFC 3629); [None] for
    a surrogate or a value above [0x10FFFF]. *)
Definition utf8_encode_cp (c : codepoint) : option bytes :=
  if (c <? 0x80)%N then Some [byte_of c]
  else if (c <? 0x800)%N then
    Some [byte_of (0xC0 + c / 64); byte_of (0x80 + c mod 64)]%N
  else if (c <? 0x10000)%N then
    if is_surrogate c then None
    else Some [byte_of (0xE0 + c / 4096); byte_of (0x80 + (c / 64) mod 64);
               byte_of (0x80 + c mod 64)]%N
  else if (c <? 0x110000)%N then
    Some [byte_of (0xF0 + c / 262144); byte_of (0x80 + (c / 4096) mod 64);
          byte_of (0x80 + (c / 64) mod 64); byte_of (0x80 + c mod 64)]%N
  else None.

(** [s.encode("utf-8")], strict: the specification of valid UTF-8 that
    [utf8_decode] is compared with. *)
Fixpoint utf8_encode (s : pystr) : option bytes :=
  match s with
  | [] => Some []
  | c :: s' =>
    match utf8_encode_cp c, utf8_encode s' with
    | Some b, Some bs => Some (b ++ bs)
    | _, _ => None
    end
  end.

Definition b64_alphabet : pystr :=
  lit "ABCDEFGHIJKLMNOPQRSTUVWXYZabcdefghijklmnopqrstuvwxyz0123456789+/".

(** The base64 digit of a 6-bit group. *)
Definition b64_char (i : N) : Byte.byte :=
  byte_of (nth (N.to_nat i) b64_alphabet 0%N).

(** The padding byte, [=]. *)
Definition b64_pad : Byte.byte := byte_of 61.

(** [base64.b64encode(val)]: standard alphabet, padded (RFC 4648). *)
Fixpoint b64encode (bs : bytes) : bytes :=
  match bs with
  | [] => []
  | [x] =>
    let a := Byte.to_N x in
    [b64_char (a / 4); b64_char ((a mod 4) * 16); b64_pad; b64_pad]%N
  | [x; y] =>
    let a := Byte.to_N x in
    let b := Byte.to_N y in
    [b64_char (a / 4); b64_char ((a mod 4) * 16 + b / 16);
     b64_char ((b mod 16) * 4); b64_pad]%N
  | x :: y :: z :: rest =>
    let a := Byte.to_N x in
    let b := Byte.to_N y in
    let c := Byte.to_N z in
    [b64_char (a / 4); b64_char ((a mod 4) * 16 + b / 16);
     b64_char ((b mod 16) * 4 + c / 64); b64_char (c mod 64)]%N
    ++ b64encode rest
  end.

(** [b.decode("ascii")] on bytes below [0x80]; [b64encode] produces no
    other byte (lemma [b64encode_ascii]), so the raising case of the
    codec is out of reach where the source calls it. *)
Definition ascii_decode (bs : bytes) : pystr := map Byte.to_N bs.

(** [str.isspace] on one character, the set [str.rstrip()] strips. *)
Definition py_isspace (c : codepoint) : bool :=
  (((0x09 <=? c) && (c <=? 0x0D)) || ((0x1C <=? c) && (c <=? 0x20))
   || (c =? 0x85) || (c =? 0xA0) || (c =? 0x1680)
   || ((0x2000 <=? c) && (c <=? 0x200A))
   || (c =? 0x2028) || (c =? 0x2029) || (c =? 0x202F)
   || (c =? 0x205F) || (c =? 0x3000))%N.

Fixpoint lstrip (s : pystr) : pystr :=
  match s with
  | c :: s' => if py_isspace c then lstrip s' else s
  | [] => []
  end.

(** [s.rstrip()]. *)
Definition rstrip (s : pystr) : pystr := rev (lstrip (rev s)).

(** [not s.strip()] for a string: every character is white space. *)
Definition all_space (s : pystr) : bool := forallb py_isspace s.

(* ------------------------------------------------------------------ *)
(** * Dictionaries, exceptions and cell values *)
(* ------------------------------------------------------------------ *)

(** A [dict] with [str] keys, in insertion order. *)
Definition dict (V : Type) := list (pystr * V).

(** [d.get(k)]. *)
Fixpoint dict_get {V : Type} (d : dict V) (k : pystr) : option V :=
  match d with
  | [] => None
  | (k', v) :: d' => if pystr_eqb k' k then Some v else dict_get d' k
  end.

(** [d[k] = v]: a present key keeps its place, a new key goes last. *)
Fixpoint dict_set {V : Type} (d : dict V) (k : pystr) (v : V) : dict V :=
  match d with
  | [] => [(k, v)]
  | (k', v') :: d' =>
    if pystr_eqb k' k then (k', v) :: d' else (k', v') :: dict_set d' k v
  end.

Definition dict_keys {V : Type} (d : dict V) : list pystr := map fst d.

(** The exceptions the modelled code can raise. *)
Inductive exn :=
| KeyError (key : pystr)
| OSError
| SystemExit (code : Z).

Definition result (A : Type) := (exn + A)%type.

(** [d[k]]. *)
Definition getitem {V : Type} (d : dict V) (k : pystr) : result V :=
  match dict_get d k with
  | Some v => inr v
  | None => inl (KeyError k)
  end.

(** A [for] loop whose body may raise. *)
Fixpoint foldM {A B : Type} (f : A -> B -> result A) (l : list B) (a : A)
  : result A :=
  match l with
  | [] => inr a
  | b :: l' =>
    match f a b with
    | inl e => inl e
    | inr a' => foldM f l' a'
    end
  end.

(** The library types a cell value can have, with the renderings the
    source asks of them. Their text is fixed by the Python runtime, not by
    this program, so the embedding takes it as given. *)
Class Runtime := {
  datetime : Type;
  date : Type;
  time : Type;
  Decimal : Type;
  scalar : Type;
  (** [val.strftime("%Y-%m-%d %H:%M:%S")] *)
  strftime_datetime : datetime -> pystr;
  (** [val.strftime("%Y-%m-%d")] *)
  strftime_date : date -> pystr;
  (** [val.strftime("%H:%M:%S")] *)
  strftime_time : time -> pystr;
  (** [str(val)] of a [decimal.Decimal] *)
  str_Decimal : Decimal -> pystr;
  (** [str(val)] of any other scalar, such as a [float] *)
  str_scalar : scalar -> pystr
}.

Section Values.
Context {rt : Runtime}.

(** A cell value as the driver hands it over. *)
Inductive value :=
| VNone
| VDatetime (d : datetime)
| VDate (d : date)
| VTime (t : time)
| VDecimal (d : Decimal)
| VBytes (b : bytes)
| VStr (s : pystr)
| VInt (z : Z)
| VScalar (x : scalar).

Definition safe_str (val : value) : pystr :=
  match val with
  | VNone => []
  | VDatetime d => strftime_datetime d
  | VDate d => strftime_date d
  | VTime t => strftime_time t
  | VDecimal d => str_Decimal d
  | VBytes b =>
    match utf8_decode b with
    | Some s => rstrip s
    | None => ascii_decode (b64encode b)
    end
  | VStr s => rstrip s
  | VInt z => str_int z
  | VScalar x => str_scalar x
  end.

(** A row: column name to value. *)
Definition row := dict value.

End Values.

(* ------------------------------------------------------------------ *)
(** * Element trees *)
(* ------------------------------------------------------------------ *)

Inductive element :=
| mkElement (tag : pystr) (attrib : dict pystr) (text tail : option pystr)
            (children : list element).

Definition tag (e : element) : pystr :=
  match e with mkElement t _ _ _ _ => t end.
Definition attrib (e : element) : dict pystr :=
  match e with mkElement _ a _ _ _ => a end.
Definition text (e : element) : option pystr :=
  match e with mkElement _ _ t _ _ => t end.
Definition tail (e : element) : option pystr :=
  match e with mkElement _ _ _ t _ => t end.
Definition children (e : element) : list element :=
  match e with mkElement _ _ _ _ c => c end.

(** [ET.Element(tag, **attrib)]. *)
Definition Element (tg : pystr) (at_ : dict pystr) : element :=
  mkElement tg at_ None None [].

(** [parent.append(child)]. *)
Definition append (parent child : element) : element :=
  mkElement (tag parent) (attrib parent) (text parent) (tail parent)
            (children parent ++ [child]).

(** [ET.SubElement(parent, tag, **attrib)]: the parent with the new
    element as its last child. *)
Definition SubElement (parent : element) (tg : pystr) (at_ : dict pystr)
  : element :=
  append parent (Element tg at_).

Definition set_text (e : element) (t : pystr) : element :=
  mkElement (tag e) (attrib e) (Some t) (tail e) (children e).

Definition set_tail (e : element) (t : pystr) : element :=
  mkElement (tag e) (attrib e) (text e) (Some t) (children e).

Fixpoint map_last {A : Type} (f : A -> A) (l : list A) : list A :=
  match l with
  | [] => []
  | [x] => [f x]
  | x :: l' => x :: map_last f l'
  end.

(** [el.text = t] where [el] is the element [SubElement] has just made:
    the assignment goes through the alias to the parent's last child. *)
Definition set_last_text (parent : element) (t : pystr) : element :=
  mkElement (tag parent) (attrib parent) (text parent) (tail parent)
            (map_last (fun c => set_text c t) (children parent)).

(** The element with more children at the end: what a loop of
    [SubElement] calls makes of it. *)
Definition with_children (e : element) (cs : list element) : element :=
  mkElement (tag e) (attrib e) (text e) (tail e) (children e ++ cs).

(** The value of attribute [k], if the element has it. *)
Definition attr (k : string) (e : element) : option pystr :=
  dict_get (attrib e) (lit k).

Definition tag_is (k : string) (e : element) : bool := pystr_eqb (tag e) (lit k).

(** The child elements with a given tag, in document order. *)
Definition findall (k : string) (e : element) : list element :=
  filter (tag_is k) (children e).

(* ------------------------------------------------------------------ *)
(** * Database metadata *)
(* ------------------------------------------------------------------ *)

(** One record of the column query of [get_table_columns]. *)
Record field_row := {
  rf_field_name : pystr;
  f_field_type : option Z;
  f_field_sub_type : option Z;
  f_field_length : option Z;
  f_field_precision : option Z;
  f_field_scale : option Z;
  rf_null_flag : option Z;
  f_character_length : option Z
}.

(** The dictionary [get_table_columns] makes per column. *)
Record column := {
  col_name : pystr;
  col_fb_type : pystr;
  col_not_null : bool
}.

(** The dictionary [get_foreign_keys] makes per constraint segment. *)
Record foreign_key := {
  fk_name : pystr;
  fk_column : pystr;
  fk_ref_table : pystr;
  fk_ref_column : pystr
}.

(** The dictionary [get_generators] makes per generator. *)
Record generator := {
  gen_name : pystr;
  gen_value : Z
}.

Section Database.
Context {rt : Runtime}.

(** An open connection, as the answers of the queries the program sends
    over it. *)
Record connection := {
  q_relations : list pystr;
  q_relation_fields : pystr -> list field_row;
  q_primary_key : pystr -> list pystr;
  q_foreign_keys : pystr -> list (pystr * pystr * pystr * pystr);
  q_generators : list pystr;
  q_gen_id : pystr -> Z;
  q_description : pystr -> list pystr;
  q_select_all : pystr -> list (list value)
}.

Definition get_user_tables (conn : connection) : list pystr :=
  q_relations conn.

Definition get_table_columns (conn : connection) (table_name : pystr)
  : list column :=
  map (fun r =>
         {| col_name := rf_field_name r;
            col_fb_type :=
              get_fb_type (f_field_type r) (f_field_sub_type r)
                          (f_field_length r) (f_field_precision r)
                          (f_field_scale r) (f_character_length r);
            col_not_null := eq_int (rf_null_flag r) 1 |})
      (q_relation_fields conn table_name).

Definition get_primary_key (conn : connection) (table_name : pystr)
  : list pystr :=
  q_primary_key conn table_name.

Definition get_foreign_keys (conn : connection) (table_name : pystr)
  : list foreign_key :=
  map (fun r =>
         match r with
         | (r0, r1, r2, r3) =>
           {| fk_name := r0; fk_column := r1;
              fk_ref_table := r2; fk_ref_column := r3 |}
         end)
      (q_foreign_keys conn table_name).

Definition get_generators (conn : connection) : list generator :=
  map (fun name => {| gen_name := name; gen_value := q_gen_id conn name |})
      (q_generators conn).

(* ------------------------------------------------------------------ *)
(** * Read all data *)
(* ------------------------------------------------------------------ *)

Definition read_row (col_names : list pystr) (raw : list value) : row :=
  fold_left
    (fun (r : row) (cv : pystr * value) =>
       let val := match snd cv with
                  | VStr s => VStr (rstrip s)
                  | v => v
                  end in
       dict_set r (fst cv) val)
    (combine col_names raw) [].

Definition read_all_tables (conn : connection) : dict (list row) :=
  let tables := get_user_tables conn in
  fold_left
    (fun (data : dict (list row)) (table : pystr) =>
       let col_names := q_description conn table in
       let rows := map (read_row col_names) (q_select_all conn table) in
       dict_set data table rows)
    tables [].

(* ------------------------------------------------------------------ *)
(** * XML generation *)
(* ------------------------------------------------------------------ *)

Definition xml_col (row_el : element) (name fb_type : pystr) (val : value)
  : element :=
  let attrs := [(lit "name", name); (lit "type", fb_type)] in
  match val with
  | VNone =>
    let attrs := dict_set attrs (lit "null") (lit "true") in
    SubElement row_el (lit "col") attrs
  | VBytes b =>
    let '(attrs, text) :=
      match utf8_decode b with
      | Some s => (attrs, rstrip s)
      | None =>
        (dict_set attrs (lit "enc") (lit "base64"),
         ascii_decode (b64encode b))
      end in
    set_last_text (SubElement row_el (lit "col") attrs) text
  | _ =>
    set_last_text (SubElement row_el (lit "col") attrs) (safe_str val)
  end.

(** [row.get(name)]. *)
Definition row_get (r : row) (name : pystr) : value :=
  match dict_get r name with
  | Some v => v
  | None => VNone
  end.

(** The schema loop over one table's columns (lines 321-327). *)
Definition schema_column (pk_cols : list pystr) (table_schema : element)
           (col : column) : element :=
  let attrs := [(lit "name", col_name col); (lit "type", col_fb_type col)] in
  let attrs := if col_not_null col
               then dict_set attrs (lit "notnull") (lit "true") else attrs in
  let attrs := if existsb (pystr_eqb (col_name col)) pk_cols
               then dict_set attrs (lit "pk") (lit "true") else attrs in
  SubElement table_schema (lit "column") attrs.

(** The schema loop over one table's foreign keys (lines 329-333). *)
Definition schema_fk (table_schema : element) (fk : foreign_key) : element :=
  SubElement table_schema (lit "fk")
    [(lit "name", fk_name fk);
     (lit "column", fk_column fk);
     (lit "references",
      fk_ref_table fk ++ lit "(" ++ fk_ref_column fk ++ lit ")")].

(** The body of the schema loop over tables (lines 314-333). The source
    attaches the new [table] element to [schema_el] before filling it;
    the parent sees the later changes through the alias, so the filled
    element is what ends up attached. *)
Definition schema_table (conn : connection) (col_meta : dict (list column))
           (schema_el : element) (table_name : pystr) : result element :=
  match getitem col_meta table_name with
  | inl e => inl e
  | inr columns =>
    let pk_cols := get_primary_key conn table_name in
    let fks := get_foreign_keys conn table_name in
    let table_schema := Element (lit "table") [(lit "name", table_name)] in
    let table_schema := fold_left (schema_column pk_cols) columns table_schema in
    let table_schema := fold_left schema_fk fks table_schema in
    inr (append schema_el table_schema)
  end.

(** The body of the loop over a table's rows (lines 341-344). *)
Definition data_row (columns : list column) (table_el : element) (r : row)
  : element :=
  let row_el := Element (lit "row") [] in
  let row_el :=
    fold_left
      (fun row_el col =>
         xml_col row_el (col_name col) (col_fb_type col)
                 (row_get r (col_name col)))
      columns row_el in
  append table_el row_el.

(** The body of the data loop over tables (lines 338-344). *)
Definition data_table (col_meta : dict (list column)) (data_el : element)
           (item : pystr * list row) : result element :=
  let '(table_name, rows) := item in
  match getitem col_meta table_name with
  | inl e => inl e
  | inr columns =>
    let table_el :=
      Element (lit "table")
              [(lit "name", table_name);
               (lit "count", str_int (Z.of_nat (List.length rows)))] in
    let table_el := fold_left (data_row columns) rows table_el in
    inr (append data_el table_el)
  end.

(** Lines 296-344 of [generate_xml]: the tree as it stands before it is
    indented and written. [source] is [os.path.basename(fdb_path)] and
    [now] the formatted clock reading of line 296. *)
Definition generate_xml_tree (conn : connection) (data : dict (list row))
           (source now : pystr) : result element :=
  let col_meta :=
    fold_left
      (fun col_meta table_name =>
         dict_set col_meta table_name (get_table_columns conn table_name))
      (dict_keys data) [] in
  let root :=
    Element (lit "database") [(lit "source", source); (lit "exported", now)] in
  let schema_el := Element (lit "schema") [] in
  let generators := get_generators conn in
  let schema_el :=
    match generators with
    | [] => schema_el
    | _ :: _ =>
      let gens_el := Element (lit "generators") [] in
      let gens_el :=
        fold_left
          (fun gens_el gen =>
             SubElement gens_el (lit "generator")
                        [(lit "name", gen_name gen);
                         (lit "value", str_int (gen_value gen))])
          generators gens_el in
      append schema_el gens_el
    end in
  match foldM (schema_table conn col_meta) (dict_keys data) schema_el with
  | inl e => inl e
  | inr schema_el =>
    let root := append root schema_el in
    let data_el := Element (lit "data") [] in
    match foldM (data_table col_meta) data data_el with
    | inl e => inl e
    | inr data_el => inr (append root data_el)
    end
  end.

End Database.

(* ------------------------------------------------------------------ *)
(** * Indentation and serialization ([xml.etree.ElementTree]) *)
(* ------------------------------------------------------------------ *)

(** ["\n" + level * "  "]. *)
Definition indentation (level : nat) : pystr :=
  10%N :: repeat 32%N (2 * level).

(** [not t or not t.strip()]. *)
Definition blank (t : option pystr) : bool :=
  match t with
  | None => true
  | Some s => all_space s
  end.

(** [_indent_children(elem, level)] of [ET.indent], for an element that
    has children. *)
Fixpoint indent_children (level : nat) (elem : element) : element :=
  match elem with
  | mkElement tg at_ tx tl ch =>
    let child_indentation := indentation (S level) in
    let tx := if blank tx then Some child_indentation else tx in
    let ch :=
      map (fun child =>
             let child :=
               match children child with
               | [] => child
               | _ :: _ => indent_children (S level) child
               end in
             if blank (tail child) then set_tail child child_indentation
             else child)
          ch in
    let ch :=
      map_last (fun child =>
                  if blank (tail child) then set_tail child (indentation level)
                  else child)
               ch in
    mkElement tg at_ tx tl ch
  end.

(** [ET.indent(tree, space="  ")]. *)
Definition indent (root : element) : element :=
  match children root with
  | [] => root
  | _ :: _ => indent_children 0 root
  end.

Definition escape_cdata (s : pystr) : pystr :=
  flat_map (fun c =>
              if (c =? 38)%N then lit "&amp;"
              else if (c =? 60)%N then lit "&lt;"
              else if (c =? 62)%N then lit "&gt;"
              else [c]) s.

Definition escape_attrib (s : pystr) : pystr :=
  flat_map (fun c =>
              if (c =? 38)%N then lit "&amp;"
              else if (c =? 60)%N then lit "&lt;"
              else if (c =? 62)%N then lit "&gt;"
              else if (c =? 34)%N then lit "&quot;"
              else if (c =? 13)%N then lit "&#13;"
              else if (c =? 10)%N then lit "&#10;"
              else if (c =? 9)%N then lit "&#09;"
              else [c]) s.

(** The text written for an optional string that is tested for truth
    first ([if text: write(_escape_cdata(text))]). *)
Definition cdata (t : option pystr) : pystr :=
  match t with
  | Some s => escape_cdata s
  | None => []
  end.

Definition nonempty (t : option pystr) : bool :=
  match t with
  | Some (_ :: _) => true
  | _ => false
  end.

(** One attribute: a space, the key, and the escaped value in double
    quotes. *)
Definition serialize_attr (kv : pystr * pystr) : pystr :=
  lit " " ++ fst kv ++ lit "=" ++ [34%N] ++ escape_attrib (snd kv) ++ [34%N].

(** [_serialize_xml] with [short_empty_elements=True], for the plain tags
    and attribute names this program uses (no namespaces). *)
Fixpoint serialize_xml (elem : element) : pystr :=
  match elem with
  | mkElement tg at_ tx tl ch =>
    lit "<" ++ tg ++ flat_map serialize_attr at_
    ++ (if nonempty tx || negb (Nat.eqb (List.length ch) 0) then
          lit ">" ++ cdata tx ++ flat_map serialize_xml ch
          ++ lit "</" ++ tg ++ lit ">"
        else lit " />")
    ++ cdata tl
  end.

(** The UTF-8 writer with [errors="xmlcharrefreplace"]: a character that
    UTF-8 cannot encode is written as a decimal character reference. *)
Definition encode_xmlcharrefreplace (s : pystr) : bytes :=
  flat_map (fun c =>
              match utf8_encode_cp c with
              | Some b => b
              | None =>
                map byte_of (lit "&#" ++ str_int (Z.of_N c) ++ lit ";")
              end) s.

(** [tree.write(f, encoding="UTF-8", xml_declaration=True)]: the bytes
    that reach the file. *)
Definition write_xml (root : element) : bytes :=
  encode_xmlcharrefreplace
    (lit "<?xml version='1.0' encoding='UTF-8'?>" ++ [10%N]
     ++ serialize_xml root).

(** What [serialize_xml] writes before the value of an element's last
    attribute [k]. *)
Definition before_last_attr (tg : pystr) (at_ : dict pystr) (k : pystr)
  : pystr :=
  lit "<" ++ tg ++ flat_map serialize_attr at_
    ++ lit " " ++ k ++ lit "=" ++ [34%N].

(** What [serialize_xml] writes after the value of an element's last
    attribute. *)
Definition after_last_attr (tg : pystr) (tx tl : option pystr)
           (ch : list element) : pystr :=
  [34%N]
    ++ (if nonempty tx || negb (Nat.eqb (List.length ch) 0) then
          lit ">" ++ cdata tx ++ flat_map serialize_xml ch
          ++ lit "</" ++ tg ++ lit ">"
        else lit " />")
    ++ cdata tl.

(** [sum(1 for _ in root.iter())]. *)
Fixpoint count_elements (e : element) : nat :=
  match e with
  | mkElement _ _ _ _ ch => S (list_sum (map count_elements ch))
  end.

(* ------------------------------------------------------------------ *)
(** * The run: connection, files and [main] *)
(* ------------------------------------------------------------------ *)

(** What the run can change outside itself: the files it writes and the
    database session it holds. [fs_writable] tells whether
    [open(path, "wb")] succeeds. *)
Record world := {
  fs_writable : pystr -> bool;
  fs_files : dict bytes;
  session_open : bool
}.

(** A computation that reads and changes the world and may raise. *)
Definition M (A : Type) := world -> result A * world.

Definition ret {A : Type} (a : A) : M A := fun w => (inr a, w).

Definition raise {A : Type} (e : exn) : M A := fun w => (inl e, w).

Definition bind {A B : Type} (m : M A) (k : A -> M B) : M B :=
  fun w =>
    match m w with
    | (inl e, w') => (inl e, w')
    | (inr a, w') => k a w'
    end.

Notation "x <- m ;; k" := (bind m (fun x => k))
  (at level 61, m at next level, right associativity).
Notation "m ;;; k" := (bind m (fun _ => k))
  (at level 61, right associativity).

(** A pure step that may raise. *)
Definition lift {A : Type} (r : result A) : M A := fun w => (r, w).

(** [with open(path, "wb") as f: f.write(content)]. *)
Definition write_file (path : pystr) (content : bytes) : M unit :=
  fun w =>
    if fs_writable w path then
      (inr tt, {| fs_writable := fs_writable w;
                  fs_files := dict_set (fs_files w) path content;
                  session_open := session_open w |})
    else (inl OSError, w).

Definition set_session (b : bool) : M unit :=
  fun w =>
    (inr tt, {| fs_writable := fs_writable w;
                fs_files := fs_files w;
                session_open := b |}).

Section Run.
Context {rt : Runtime}.

(** [connect_embedded]: [attempts] lists, in search order, what
    [fdb.connect] does with each client library found on disk, [None]
    for an exception (which the loop catches). With no success the
    function ends the process with [sys.exit(1)]. *)
Fixpoint connect_embedded (attempts : list (option connection))
  : M connection :=
  match attempts with
  | [] => raise (SystemExit 1)
  | Some conn :: _ => set_session true ;;; ret conn
  | None :: rest => connect_embedded rest
  end.

(** [conn.close()]. *)
Definition close (conn : connection) : M unit := set_session false.

(** [generate_xml(conn, data, fdb_path, output_path)]; the element count
    it prints is its result here. *)
Definition generate_xml (conn : connection) (data : dict (list row))
           (source output_path now : pystr) : M nat :=
  root <- lift (generate_xml_tree conn data source now) ;;
  let root := indent root in
  write_file output_path (write_xml root) ;;;
  ret (count_elements root - 1).

(** [main] from the point where the paths are known. [fdb_exists] is
    [os.path.exists(args.fdb_path)]. Messages on standard output are left
    out. *)
Definition main (fdb_exists : bool) (attempts : list (option connection))
           (source xml_path now : pystr) : M unit :=
  if negb fdb_exists then raise (SystemExit 1)
  else
    conn <- connect_embedded attempts ;;
    let data := read_all_tables conn in
    generate_xml conn data source xml_path now ;;;
    close conn.

End Run.

(* ------------------------------------------------------------------ *)
(** * The document in closed form *)
(* ------------------------------------------------------------------ *)

(** The loops of [generate_xml] build the tree child by child. The
    definitions below describe the same tree as nested maps; lemma
    [generate_xml_tree_document] proves that the loops build it. *)

Section Document.
Context {rt : Runtime}.

(** The element [xml_col] adds to a row. *)
Definition cell (name fb_type : pystr) (val : value) : element :=
  let attrs := [(lit "name", name); (lit "type", fb_type)] in
  match val with
  | VNone =>
    mkElement (lit "col") (attrs ++ [(lit "null", lit "true")]) None None []
  | VBytes b =>
    match utf8_decode b with
    | Some s => mkElement (lit "col") attrs (Some (rstrip s)) None []
    | None =>
      mkElement (lit "col") (attrs ++ [(lit "enc", lit "base64")])
                (Some (ascii_decode (b64encode b))) None []
    end
  | _ => mkElement (lit "col") attrs (Some (safe_str val)) None []
  end.

Definition row_element (columns : list column) (r : row) : element :=
  mkElement (lit "row") [] None None
    (map (fun col =>
            cell (col_name col) (col_fb_type col) (row_get r (col_name col)))
         columns).

Definition data_table_element (conn : connection) (item : pystr * list row)
  : element :=
  mkElement (lit "table")
    [(lit "name", fst item);
     (lit "count", str_int (Z.of_nat (List.length (snd item))))]
    None None
    (map (row_element (get_table_columns conn (fst item))) (snd item)).

Definition column_element (pk_cols : list pystr) (col : column) : element :=
  mkElement (lit "column")
    ([(lit "name", col_name col); (lit "type", col_fb_type col)]
     ++ (if col_not_null col then [(lit "notnull", lit "true")] else [])
     ++ (if existsb (pystr_eqb (col_name col)) pk_cols
         then [(lit "pk", lit "true")] else []))
    None None [].

Definition fk_element (fk : foreign_key) : element :=
  mkElement (lit "fk")
    [(lit "name", fk_name fk);
     (lit "column", fk_column fk);
     (lit "references",
      fk_ref_table fk ++ lit "(" ++ fk_ref_column fk ++ lit ")")]
    None None [].

Definition schema_table_element (conn : connection) (table_name : pystr)
  : element :=
  mkElement (lit "table") [(lit "name", table_name)] None None
    (map (column_element (get_primary_key conn table_name))
         (get_table_columns conn table_name)
     ++ map fk_element (get_foreign_keys conn table_name)).

Definition generator_element (gen : generator) : element :=
  mkElement (lit "generator")
    [(lit "name", gen_name gen); (lit "value", str_int (gen_value gen))]
    None None [].

Definition generators_elements (conn : connection) : list element :=
  match get_generators conn with
  | [] => []
  | gens =>
    [mkElement (lit "generators") [] None None (map generator_element gens)]
  end.

Definition schema_element (conn : connection) (data : dict (list row))
  : element :=
  mkElement (lit "schema") [] None None
    (generators_elements conn
     ++ map (schema_table_element conn) (dict_keys data)).

Definition data_element (conn : connection) (data : dict (list row))
  : element :=
  mkElement (lit "data") [] None None (map (data_table_element conn) data).

Definition document (conn : connection) (data : dict (list row))
           (source now : pystr) : element :=
  mkElement (lit "database")
    [(lit "source", source); (lit "exported", now)] None None
    [schema_element conn data; data_element conn data].

End Document.

(* ------------------------------------------------------------------ *)
(** * Definitions for the further properties *)
(* ------------------------------------------------------------------ *)

(** The loop [for x in l: d[key(x)] = val(x)]. *)
Definition dict_fill {B V : Type} (key : B -> pystr) (val : B -> V)
           (d : dict V) (l : list B) : dict V :=
  fold_left (fun d x => dict_set d (key x) (val x)) l d.

(** Whether the strings of a list differ from one another. *)
Fixpoint distinct (l : list pystr) : bool :=
  match l with
  | [] => true
  | k :: l' => negb (existsb (pystr_eqb k) l') && distinct l'
  end.

Section ReaderStrip.
Context {rt : Runtime}.

(** What [read_all_tables] stores for a fetched value: a [str] loses its
    trailing white space, any other value is kept. *)
Definition reader_strip (v : value) : value :=
  match v with
  | VStr s => VStr (rstrip s)
  | v => v
  end.

End ReaderStrip.

(** The place of a character in a list, counted from [i]. *)
Fixpoint index_from (c : N) (l : list N) (i : N) : option N :=
  match l with
  | [] => None
  | x :: l' => if (x =? c)%N then Some i else index_from c l' (i + 1)%N
  end.

(** The 6-bit group a base64 digit stands for. *)
Definition b64_index (b : Byte.byte) : option N :=
  index_from (Byte.to_N b) b64_alphabet 0.

(** The inverse of [b64encode]: four digits give three bytes, and a
    last group padded with [=] gives one or two. [None] for text that is
    not padded base64. *)
Fixpoint b64decode (cs : bytes) : option bytes :=
  match cs with
  | [] => Some []
  | c0 :: c1 :: c2 :: c3 :: rest =>
    match b64_index c0, b64_index c1 with
    | Some s0, Some s1 =>
      let x := byte_of (s0 * 4 + s1 / 16) in
      if Byte.eqb c2 b64_pad then
        if Byte.eqb c3 b64_pad then
          match rest with [] => Some [x] | _ :: _ => None end
        else None
      else
        match b64_index c2 with
        | Some s2 =>
          let y := byte_of ((s1 mod 16) * 16 + s2 / 4) in
          if Byte.eqb c3 b64_pad then
            match rest with [] => Some [x; y] | _ :: _ => None end
          else
            match b64_index c3 with
            | Some s3 =>
              let z := byte_of ((s2 mod 4) * 64 + s3) in
              option_map (fun bs => x :: y :: z :: bs) (b64decode rest)
            | None => None
            end
        | None => None
        end
    | _, _ => None
    end
  | _ => None
  end.

(* ------------------------------------------------------------------ *)
(** * Test data *)
(* ------------------------------------------------------------------ *)

(** A runtime whose cells hold no date, time, decimal or other library
    value: enough for rows of integers, text, bytes and nulls. *)
Definition plain_runtime : Runtime :=
  {| datetime := Empty_set;
     date := Empty_set;
     time := Empty_set;
     Decimal := Empty_set;
     scalar := Empty_set;
     strftime_datetime := fun d => match d with end;
     strftime_date := fun d => match d with end;
     strftime_time := fun t => match t with end;
     str_Decimal := fun d => match d with end;
     str_scalar := fun x => match x with end |}.

Definition account_fields : list field_row :=
  [ {| rf_field_name := lit "ID"; f_field_type := Some 8%Z;
       f_field_sub_type := Some 0%Z; f_field_length := Some 4%Z;
       f_field_precision := Some 0%Z; f_field_scale := Some 0%Z;
       rf_null_flag := Some 1%Z; f_character_length := None |};
    {| rf_field_name := lit "BALANCE"; f_field_type := Some 16%Z;
       f_field_sub_type := Some 1%Z; f_field_length := Some 8%Z;
       f_field_precision := Some 10%Z; f_field_scale := Some (-2)%Z;
       rf_null_flag := None; f_character_length := None |};
    {| rf_field_name := lit "NAME"; f_field_type := Some 37%Z;
       f_field_sub_type := None; f_field_length := Some 200%Z;
       f_field_precision := None; f_field_scale := None;
       rf_null_flag := None; f_character_length := Some 50%Z |} ].

(** A database with one table [ACCOUNT (ID, BALANCE, NAME)], no foreign
    key and no generator; the driver lists the columns of a row in
    another order than the catalog. *)
Definition account_db : @connection plain_runtime :=
  {| q_relations := [lit "ACCOUNT"];
     q_relation_fields := fun _ => account_fields;
     q_primary_key := fun _ => [lit "ID"];
     q_foreign_keys := fun _ => [];
     q_generators := [];
     q_gen_id := fun _ => 0%Z;
     q_description := fun _ => [lit "NAME"; lit "ID"; lit "BALANCE"];
     q_select_all := fun _ =>
       [ [VStr (lit "Bob "); VInt 1; VBytes [Byte.xff; Byte.xfe]];
         [VNone; VInt 2; VBytes (map byte_of (lit "hello  "))] ] |}.

(** A database with two tables, [CUSTOMER] with two records and [ORDERS]
    with one. *)
Definition shop_db : @connection plain_runtime :=
  {| q_relations := [lit "CUSTOMER"; lit "ORDERS"];
     q_relation_fields := fun _ => [];
     q_primary_key := fun _ => [];
     q_foreign_keys := fun _ => [];
     q_generators := [];
     q_gen_id := fun _ => 0%Z;
     q_description := fun t =>
       if pystr_eqb t (lit "CUSTOMER") then [lit "ID"; lit "NAME"]
       else [lit "ID"];
     q_select_all := fun t =>
       if pystr_eqb t (lit "CUSTOMER")
       then [ [VInt 1; VStr (lit "Ann ")]; [VInt 2; VStr (lit "Bob")] ]
       else [ [VInt 7] ] |}.

(** A world in which no file can be opened for writing. *)
Definition read_only_world : world :=
  {| fs_writable := fun _ => false; fs_files := []; session_open := false |}.

(** Two columns [A], [B] and two row mappings that agree on them: the
    second lists its keys in another order and holds a key more. *)
Definition ab_columns : list column :=
  [ {| col_name := lit "A"; col_fb_type := lit "INTEGER";
       col_not_null := false |};
    {| col_name := lit "B"; col_fb_type := lit "INTEGER";
       col_not_null := false |} ].

Definition ab_row : @row plain_runtime :=
  [(lit "A", VInt 1); (lit "B", VInt 2)].

Definition ba_row : @row plain_runtime :=
  [(lit "B", VInt 2); (lit "C", VInt 3); (lit "A", VInt 1)].

(* ------------------------------------------------------------------ *)
(** * Proof tools *)
(* ------------------------------------------------------------------ *)

(** Division and remainder by a constant, for [lia]. *)
Ltac Zify.zify_post_hook ::= Z.to_euclidean_division_equations.

(** Turns the boolean range tests of the codecs into (in)equalities. *)
Ltac bools :=
  repeat match goal with
  | H : _ && _ = true |- _ => apply andb_true_iff in H; destruct H
  | H : negb _ = true |- _ => apply negb_true_iff in H
  | H : (_ <? _)%N = true |- _ => apply N.ltb_lt in H
  | H : (_ <? _)%N = false |- _ => apply N.ltb_ge in H
  | H : (_ <=? _)%N = true |- _ => apply N.leb_le in H
  | H : (_ <=? _)%N = false |- _ => apply N.leb_gt in H
  end.

(* ================================================================== *)
(** * Properties *)
(* ================================================================== *)

(** ** Booleans of the model *)

Lemma pystr_eqb_eq (a b : pystr) : pystr_eqb a b = true <-> a = b.
Proof.
  unfold pystr_eqb. destruct (list_eq_dec N.eq_dec a b); split;
    congruence.
Qed.

Lemma pystr_eqb_refl (a : pystr) : pystr_eqb a a = true.
Proof. now apply pystr_eqb_eq. Qed.

Lemma pystr_eqb_neq (a b : pystr) : pystr_eqb a b = false <-> a <> b.
Proof.
  unfold pystr_eqb. destruct (list_eq_dec N.eq_dec a b); split;
    congruence.
Qed.

Lemma existsb_pystr_In (k : pystr) (l : list pystr) :
  existsb (pystr_eqb k) l = true <-> In k l.
Proof.
  rewrite existsb_exists. split.
  - intros (x & Hx & E). apply pystr_eqb_eq in E. now subst.
  - intros H. exists k. split; [assumption | apply pystr_eqb_refl].
Qed.

Lemma Some_inj {A : Type} (a b : A) : Some a = Some b -> a = b.
Proof. congruence. Qed.

Lemma ltb_true (a b : N) : (a < b)%N -> (a <? b)%N = true.
Proof. apply N.ltb_lt. Qed.

Lemma ltb_false (a b : N) : (b <= a)%N -> (a <? b)%N = false.
Proof. apply N.ltb_ge. Qed.

Lemma leb_true (a b : N) : (a <= b)%N -> (a <=? b)%N = true.
Proof. apply N.leb_le. Qed.

(** ** The type mapper *)

Example numeric_10_2_example :
  get_fb_type (Some 16%Z) (Some 1%Z) (Some 8%Z) (Some 10%Z) (Some (-2)%Z) None
  = lit "NUMERIC(10,2)".
Proof. reflexivity. Qed.

Example get_fb_type_absent_precision_scale :
  get_fb_type (Some 7%Z) (Some 2%Z) (Some 2%Z) None None None
  = lit "DECIMAL(0,0)".
Proof. reflexivity. Qed.

Example get_fb_type_blob_subtype :
  get_fb_type (Some 261%Z) (Some (-3)%Z) (Some 8%Z) None None None
  = lit "BLOB SUB_TYPE -3".
Proof. reflexivity. Qed.

Example get_fb_type_plain_integer :
  get_fb_type (Some 8%Z) (Some 0%Z) (Some 4%Z) (Some 9%Z) (Some 0%Z) None
  = lit "INTEGER".
Proof. reflexivity. Qed.

(** C1. For a native code among 7, 8 and 16 and a subtype of 1 or 2, the
    type mapper returns [NUMERIC(p,s)] (subtype 1) or [DECIMAL(p,s)]
    (subtype 2), where [p] is the native precision and [s] the negated
    native scale, each taken as 0 when absent; the result is none of the
    plain integer type names, so this rule wins over them. *)
Theorem get_fb_type_numeric :
  forall (ft sub : Z) (len prec scale cl : option Z),
    In ft [7; 8; 16]%Z -> In sub [1; 2]%Z ->
    get_fb_type (Some ft) (Some sub) len prec scale cl
    = (if (sub =? 1)%Z then lit "NUMERIC" else lit "DECIMAL")
        ++ lit "(" ++ str_int (or0 prec) ++ lit ","
        ++ str_int (- or0 scale) ++ lit ")"
    /\ ~ In (get_fb_type (Some ft) (Some sub) len prec scale cl)
            [lit "SMALLINT"; lit "INTEGER"; lit "BIGINT"].
Proof.
  intros ft sub len prec scale cl Hft Hsub.
  assert (E : get_fb_type (Some ft) (Some sub) len prec scale cl
              = (if (sub =? 1)%Z then lit "NUMERIC" else lit "DECIMAL")
                  ++ lit "(" ++ str_int (or0 prec) ++ lit ","
                  ++ str_int (- or0 scale) ++ lit ")").
  { unfold get_fb_type.
    replace (in_ints (Some ft) [7; 8; 16]%Z) with true
      by (cbn in Hft; intuition (subst; reflexivity)).
    replace (existsb (Z.eqb (or0 (Some sub))) [1; 2]%Z) with true
      by (cbn in Hsub; intuition (subst; reflexivity)).
    reflexivity. }
  split; [exact E|].
  rewrite E.
  cbn in Hsub. destruct Hsub as [<- | [<- | []]]; cbn;
    intros [H | [H | [H | []]]]; discriminate H.
Qed.

Lemma get_fb_type_numeric_witness :
  get_fb_type (Some 16%Z) (Some 1%Z) (Some 8%Z) (Some 10%Z) (Some (-2)%Z) None
  = lit "NUMERIC(10,2)".
Proof.
  exact (proj1 (get_fb_type_numeric 16 1 (Some 8%Z) (Some 10%Z)
                  (Some (-2)%Z) None
                  (or_intror (or_intror (or_introl eq_refl)))
                  (or_introl eq_refl))).
Defined.

(** The length a character type shows: the character length when it is
    given and not zero, the raw storage length otherwise. *)
Lemma char_type_length (len cl : option Z) :
  (if truthy cl then cl else len)
  = match cl with
    | Some n => if (n =? 0)%Z then len else Some n
    | None => len
    end.
Proof. destruct cl as [n|]; cbn; [destruct (n =? 0)%Z|]; reflexivity. Qed.

(** C4, as stated, fails: a character length of 0 is provided, yet the
    type string of a [CHAR] column shows the raw storage length 10. *)
Lemma get_fb_type_char_length_zero :
  get_fb_type (Some 14%Z) None (Some 10%Z) None None (Some 0%Z)
  = lit "CHAR(10)"
  /\ get_fb_type (Some 14%Z) None (Some 10%Z) None None (Some 0%Z)
     <> lit "CHAR(" ++ fmt_int (Some 0%Z) ++ lit ")".
Proof. split; [reflexivity | discriminate]. Qed.

(** C4, amended. For the character types (native codes 14, 37 and 40)
    the length in the type string is the character length when one is
    given and is not zero, and the raw storage length when the character
    length is absent or zero. *)
Theorem get_fb_type_char_length :
  forall (ft : Z) (sub len prec scale cl : option Z),
    In ft [14; 37; 40]%Z ->
    get_fb_type (Some ft) sub len prec scale cl
    = (if (ft =? 14)%Z then lit "CHAR(" else lit "VARCHAR(")
        ++ fmt_int match cl with
                   | Some n => if (n =? 0)%Z then len else Some n
                   | None => len
                   end
        ++ lit ")".
Proof.
  intros ft sub len prec scale cl Hft.
  rewrite <- char_type_length.
  cbn in Hft. destruct Hft as [<- | [<- | [<- | []]]]; reflexivity.
Qed.

Lemma get_fb_type_char_length_witness :
  get_fb_type (Some 37%Z) None (Some 200%Z) None None (Some 50%Z)
  = lit "VARCHAR(50)".
Proof.
  exact (get_fb_type_char_length 37 None (Some 200%Z) None None (Some 50%Z)
           (or_intror (or_introl eq_refl))).
Defined.

Lemma in_ints_cons_false (x : option Z) (k : Z) (ks : list Z) :
  in_ints x (k :: ks) = false -> eq_int x k = false /\ in_ints x ks = false.
Proof. unfold in_ints. cbn. apply orb_false_elim. Qed.

(** The string the type mapper builds for a type code that no rule
    recognizes, the conversion limit left aside. *)
Lemma get_fb_type_unknown :
  forall (ft sub len prec scale cl : option Z),
    in_ints ft recognized_codes = false ->
    get_fb_type ft sub len prec scale cl
    = lit "VARCHAR(255) /* unknown fb type " ++ fmt_int ft ++ lit " */".
Proof.
  intros ft sub len prec scale cl H. unfold recognized_codes in H.
  repeat match type of H with
         | in_ints _ (_ :: _) = false =>
           apply in_ints_cons_false in H; let E := fresh "E" in
           destruct H as [E H]
         end.
  unfold get_fb_type, in_ints. cbn [existsb].
  rewrite E, E0, E1, E2, E3, E4, E5, E6, E7, E8, E9, E10.
  reflexivity.
Qed.







(** ** UTF-8 *)

Section Utf8.
Local Open Scope N_scope.

Lemma byte_of_to_N n : n < 256 -> Byte.to_N (byte_of n) = n.
Proof.
  intros H. unfold byte_of. destruct (Byte.of_N n) eqn:E.
  - now apply Byte.to_of_N.
  - apply Byte.of_N_None_iff in E. lia.
Qed.

Lemma byte_of_of_to_N b : byte_of (Byte.to_N b) = b.
Proof. unfold byte_of. now rewrite Byte.of_to_N. Qed.

Lemma byte_of_eq n b : n = Byte.to_N b -> byte_of n = b.
Proof. intros ->. apply byte_of_of_to_N. Qed.

Lemma utf8_decode_encoded c bs rest :
  utf8_encode_cp c = Some bs ->
  utf8_decode (bs ++ rest) = option_map (cons c) (utf8_decode rest).
Proof.
  unfold utf8_encode_cp.
  destruct (c <? 0x80) eqn:H1.
  { intros E; apply Some_inj in E; subst bs. bools. cbn [app utf8_decode].
    rewrite byte_of_to_N by lia. now rewrite ltb_true by lia. }
  destruct (c <? 0x800) eqn:H2.
  { intros E; apply Some_inj in E; subst bs. bools. cbn [app utf8_decode].
    rewrite !byte_of_to_N by lia.
    rewrite (ltb_false _ 0x80), (ltb_false _ 0xC2), (ltb_true _ 0xE0) by lia.
    unfold is_cont. rewrite leb_true, ltb_true by lia. cbn [andb].
    do 2 f_equal. lia. }
  destruct (c <? 0x10000) eqn:H3.
  { destruct (is_surrogate c) eqn:Hs; [discriminate|].
    intros E; apply Some_inj in E; subst bs. bools. cbn [app utf8_decode].
    rewrite !byte_of_to_N by lia.
    rewrite (ltb_false _ 0x80), (ltb_false _ 0xC2), (ltb_false _ 0xE0),
      (ltb_true _ 0xF0) by lia.
    unfold is_cont. rewrite !leb_true, !ltb_true by lia. cbn [andb].
    replace ((0xE0 + c / 4096 - 0xE0) * 4096 + (0x80 + (c / 64) mod 64 - 0x80) * 64
             + (0x80 + c mod 64 - 0x80)) with c by lia.
    rewrite Hs, ?leb_true by lia. reflexivity. }
  destruct (c <? 0x110000) eqn:H4; [|discriminate].
  intros E; apply Some_inj in E; subst bs. bools. cbn [app utf8_decode].
  rewrite !byte_of_to_N by lia.
  rewrite (ltb_false _ 0x80), (ltb_false _ 0xC2), (ltb_false _ 0xE0),
    (ltb_false _ 0xF0), (ltb_true _ 0xF5) by lia.
  unfold is_cont. rewrite !leb_true, !ltb_true by lia. cbn [andb].
  replace ((0xF0 + c / 262144 - 0xF0) * 262144
           + (0x80 + (c / 4096) mod 64 - 0x80) * 4096
           + (0x80 + (c / 64) mod 64 - 0x80) * 64
           + (0x80 + c mod 64 - 0x80)) with c by lia.
  rewrite ?leb_true, ?ltb_true by lia. reflexivity.
Qed.

Lemma utf8_encode_decode s : forall bs,
  utf8_encode s = Some bs -> utf8_decode bs = Some s.
Proof.
  induction s as [|c s IH]; intros bs; cbn [utf8_encode].
  - now intros [= <-].
  - destruct (utf8_encode_cp c) as [b|] eqn:Hc; [|discriminate].
    destruct (utf8_encode s) as [bs'|]; [|discriminate].
    intros [= <-]. rewrite (utf8_decode_encoded _ _ _ Hc), (IH _ eq_refl).
    reflexivity.
Qed.

Lemma option_map_cons_inv {A} (c : A) o s :
  option_map (cons c) o = Some s -> exists s', s = c :: s' /\ o = Some s'.
Proof. destruct o; cbn; [intros [= <-]; eauto | discriminate]. Qed.

(** One step of the decoder consumes the encoding of the code point it
    yields. *)
Lemma utf8_decode_step b0 t0 s :
  utf8_decode (b0 :: t0) = Some s ->
  exists c pre rest s',
    b0 :: t0 = pre ++ rest /\ (List.length rest <= List.length t0)%nat /\ s = c :: s'
    /\ utf8_encode_cp c = Some pre /\ utf8_decode rest = Some s'.
Proof.
  pose proof (Byte.to_N_bounded b0) as B0.
  cbn [utf8_decode].
  destruct (Byte.to_N b0 <? 0x80) eqn:H1.
  { intros (s' & -> & Hd)%option_map_cons_inv. bools.
    exists (Byte.to_N b0), [b0], t0, s'. repeat split; auto.
    unfold utf8_encode_cp. rewrite ltb_true by lia.
    now rewrite byte_of_of_to_N. }
  destruct (Byte.to_N b0 <? 0xC2) eqn:H2; [discriminate|].
  destruct (Byte.to_N b0 <? 0xE0) eqn:H3.
  { destruct t0 as [|b1 t1]; [discriminate|].
    destruct (is_cont (Byte.to_N b1)) eqn:C1; [|discriminate].
    intros (s' & -> & Hd)%option_map_cons_inv. unfold is_cont in *. bools.
    eexists _, [b0; b1], t1, s'. repeat split; eauto.
    { cbn. lia. }
    unfold utf8_encode_cp.
    rewrite (ltb_false _ 0x80), (ltb_true _ 0x800) by lia.
    do 3 f_equal; apply byte_of_eq; lia. }
  destruct (Byte.to_N b0 <? 0xF0) eqn:H4.
  { destruct t0 as [|b1 [|b2 t2]]; try discriminate.
    match goal with |- (if ?c then _ else _) = _ -> _ => destruct c eqn:C end;
      [|discriminate].
    intros (s' & -> & Hd)%option_map_cons_inv. unfold is_cont in *. bools.
    eexists _, [b0; b1; b2], t2, s'. repeat split; eauto.
    { cbn. lia. }
    unfold utf8_encode_cp.
    rewrite (ltb_false _ 0x80), (ltb_false _ 0x800), (ltb_true _ 0x10000) by lia.
    match goal with H : is_surrogate _ = false |- _ => rewrite H end.
    do 4 f_equal; apply byte_of_eq; lia. }
  destruct (Byte.to_N b0 <? 0xF5) eqn:H5; [|discriminate].
  destruct t0 as [|b1 [|b2 [|b3 t3]]]; try discriminate.
  match goal with |- (if ?c then _ else _) = _ -> _ => destruct c eqn:C end;
    [|discriminate].
  intros (s' & -> & Hd)%option_map_cons_inv. unfold is_cont in *. bools.
  eexists _, [b0; b1; b2; b3], t3, s'. repeat split; eauto.
  { cbn. lia. }
  unfold utf8_encode_cp.
  rewrite (ltb_false _ 0x80), (ltb_false _ 0x800), (ltb_false _ 0x10000),
    (ltb_true _ 0x110000) by lia.
  do 5 f_equal; apply byte_of_eq; lia.
Qed.

Lemma utf8_decode_encode_upto n : forall bs s,
  (List.length bs <= n)%nat -> utf8_decode bs = Some s -> utf8_encode s = Some bs.
Proof.
  induction n as [|n IH]; intros [|b0 t0] s Hn Hd; cbn in Hn; try lia.
  - cbn in Hd. now injection Hd as <-.
  - cbn in Hd. now injection Hd as <-.
  - apply utf8_decode_step in Hd as (c & pre & rest & s' & E & L & -> & Hc & Hr).
    cbn [utf8_encode]. rewrite Hc, (IH rest s') by (auto; lia).
    now rewrite E.
Qed.

(** [utf8_decode] accepts exactly the byte strings that are the UTF-8
    encoding of a sequence of Unicode scalar values, and yields that
    sequence. *)
Lemma utf8_decode_iff_encode bs s :
  utf8_decode bs = Some s <-> utf8_encode s = Some bs.
Proof.
  split.
  - apply (utf8_decode_encode_upto (List.length bs)). lia.
  - apply utf8_encode_decode.
Qed.

End Utf8.

(** ** Trailing white space *)

Lemma lstrip_spec (s : pystr) :
  exists ws, s = ws ++ lstrip s /\ all_space ws = true
             /\ match lstrip s with
                | c :: _ => py_isspace c = false
                | [] => True
                end.
Proof.
  induction s as [|c s (ws & E & Hws & Hhd)]; cbn [lstrip].
  - exists []. now repeat split.
  - destruct (py_isspace c) eqn:Hc.
    + exists (c :: ws). unfold all_space in *. cbn [app forallb].
      rewrite Hc, Hws. repeat split; [|assumption].
      now rewrite E at 1.
    + exists []. now repeat split.
Qed.

(** [rstrip] removes a suffix of white space and leaves a string that
    does not end in white space. *)
Lemma rstrip_spec (s : pystr) :
  exists ws, s = rstrip s ++ ws /\ all_space ws = true
             /\ forall t c, rstrip s = t ++ [c] -> py_isspace c = false.
Proof.
  unfold rstrip. destruct (lstrip_spec (rev s)) as (ws & E & Hws & Hhd).
  exists (rev ws). repeat split.
  - rewrite <- rev_app_distr, <- E. symmetry. apply rev_involutive.
  - unfold all_space in *. apply forallb_forall. intros x Hx.
    apply In_rev in Hx. rewrite forallb_forall in Hws. now apply Hws.
  - intros t c Ht. apply (f_equal (@rev _)) in Ht.
    rewrite rev_involutive, rev_app_distr in Ht. cbn in Ht.
    now rewrite Ht in Hhd.
Qed.

Example rstrip_hello :
  option_map rstrip (utf8_decode (map byte_of (lit "hello  ")))
  = Some (lit "hello").
Proof. reflexivity. Qed.

Example rstrip_keeps_inner_space :
  rstrip (lit "  a b  ") = lit "  a b".
Proof. reflexivity. Qed.

(** ** base64 *)

Example b64encode_foobar :
  ascii_decode (b64encode (map byte_of (lit "foobar"))) = lit "Zm9vYmFy".
Proof. reflexivity. Qed.

Example b64encode_fooba :
  ascii_decode (b64encode (map byte_of (lit "fooba"))) = lit "Zm9vYmE=".
Proof. reflexivity. Qed.

Example b64encode_foob :
  ascii_decode (b64encode (map byte_of (lit "foob"))) = lit "Zm9vYg==".
Proof. reflexivity. Qed.

Example b64encode_ff_fe :
  ascii_decode (b64encode [Byte.xff; Byte.xfe]) = lit "//4=".
Proof. reflexivity. Qed.

Lemma b64_char_ascii (i : N) : (Byte.to_N (b64_char i) < 128)%N.
Proof.
  unfold b64_char.
  assert (H : (nth (N.to_nat i) b64_alphabet 0 < 128)%N).
  { destruct (nth_in_or_default (N.to_nat i) b64_alphabet 0%N) as [Hin | ->];
      [|lia].
    assert (F : forallb (fun c => c <? 128)%N b64_alphabet = true)
      by reflexivity.
    rewrite forallb_forall in F. apply N.ltb_lt. now apply F. }
  rewrite byte_of_to_N; lia.
Qed.

Lemma b64encode_ascii_upto (n : nat) : forall bs,
  (List.length bs <= n)%nat ->
  Forall (fun b => (Byte.to_N b < 128)%N) (b64encode bs).
Proof.
  assert (P : (Byte.to_N b64_pad < 128)%N) by (cbn; lia).
  induction n as [|n IH]; intros [|x [|y [|z rest]]] Hn; cbn in Hn;
    try lia; cbn [b64encode app];
    repeat (constructor; try apply b64_char_ascii; try exact P).
  apply IH. lia.
Qed.

(** [b64encode] writes ASCII only, so decoding its result as ASCII cannot
    raise. *)
Lemma b64encode_ascii (bs : bytes) :
  Forall (fun b => (Byte.to_N b < 128)%N) (b64encode bs).
Proof. apply (b64encode_ascii_upto (List.length bs)). lia. Qed.

(** ** One cell *)

Lemma map_last_snoc {A : Type} (f : A -> A) (l : list A) (x : A) :
  map_last f (l ++ [x]) = l ++ [f x].
Proof.
  induction l as [|a l IH]; [reflexivity|].
  cbn [app map_last]. rewrite IH. destruct l; reflexivity.
Qed.

Lemma set_last_text_SubElement (parent : element) (tg : pystr)
      (at_ : dict pystr) (t : pystr) :
  set_last_text (SubElement parent tg at_) t
  = append parent (mkElement tg at_ (Some t) None []).
Proof.
  unfold set_last_text, SubElement, append. cbn.
  now rewrite map_last_snoc.
Qed.

Section Cells.
Context {rt : Runtime}.

(** C3. A bytes value that is the UTF-8 encoding of a text [s] is emitted
    as a [col] element whose text is [s] without its trailing white space
    and which has no [enc] attribute; a bytes value that is the UTF-8
    encoding of no text is emitted with its base64 encoding as text and
    the attribute [enc="base64"]. The two cases exclude each other, so
    the plain-text form is produced for valid UTF-8 only. [safe_str]
    yields the same text. *)
Theorem xml_col_bytes :
  forall (row_el : element) (name fb_type : pystr) (b : bytes),
    (exists s t ws,
        utf8_encode s = Some b
        /\ s = t ++ ws /\ all_space ws = true
        /\ (forall t' c, t = t' ++ [c] -> py_isspace c = false)
        /\ safe_str (VBytes b) = t
        /\ xml_col row_el name fb_type (VBytes b)
           = append row_el
               (mkElement (lit "col")
                          [(lit "name", name); (lit "type", fb_type)]
                          (Some t) None []))
    \/
    ((forall s, utf8_encode s <> Some b)
     /\ safe_str (VBytes b) = ascii_decode (b64encode b)
     /\ xml_col row_el name fb_type (VBytes b)
        = append row_el
            (mkElement (lit "col")
                       [(lit "name", name); (lit "type", fb_type);
                        (lit "enc", lit "base64")]
                       (Some (ascii_decode (b64encode b))) None [])).
Proof.
  intros row_el name fb_type b.
  unfold xml_col, safe_str.
  destruct (utf8_decode b) as [s|] eqn:Hd.
  - left. destruct (rstrip_spec s) as (ws & E & Hws & Hlast).
    exists s, (rstrip s), ws. repeat split; try assumption.
    + now apply utf8_decode_iff_encode.
    + apply set_last_text_SubElement.
  - right. repeat split.
    + intros s Hs. apply utf8_decode_iff_encode in Hs. congruence.
    + apply set_last_text_SubElement.
Qed.

End Cells.

(** ** Dictionaries and loops *)

Lemma dict_get_set {V : Type} (d : dict V) (k k' : pystr) (v : V) :
  dict_get (dict_set d k v) k'
  = if pystr_eqb k k' then Some v else dict_get d k'.
Proof.
  induction d as [|[k0 v0] d IH]; cbn [dict_set dict_get].
  - reflexivity.
  - destruct (pystr_eqb k0 k) eqn:E0; cbn [dict_get].
    + apply pystr_eqb_eq in E0. subst k0.
      destruct (pystr_eqb k k'); reflexivity.
    + rewrite IH. destruct (pystr_eqb k0 k') eqn:E1; [|reflexivity].
      apply pystr_eqb_eq in E1. subst k0.
      destruct (pystr_eqb k k') eqn:E2; [|reflexivity].
      apply pystr_eqb_eq in E2. subst k'. now rewrite pystr_eqb_refl in E0.
Qed.

(** The dictionary a loop [for k in keys: d[k] = f(k)] leaves behind. *)
Lemma dict_get_fold_set {V : Type} (f : pystr -> V) (keys : list pystr) :
  forall (d : dict V) (k : pystr),
    dict_get (fold_left (fun d k => dict_set d k (f k)) keys d) k
    = if existsb (pystr_eqb k) keys then Some (f k) else dict_get d k.
Proof.
  induction keys as [|a keys IH]; intros d k; cbn [fold_left existsb].
  - reflexivity.
  - rewrite IH, dict_get_set.
    destruct (existsb (pystr_eqb k) keys); [now rewrite orb_true_r|].
    rewrite orb_false_r.
    destruct (pystr_eqb a k) eqn:E.
    + apply pystr_eqb_eq in E. subst a. now rewrite pystr_eqb_refl.
    + destruct (pystr_eqb k a) eqn:E'; [|reflexivity].
      apply pystr_eqb_eq in E'. subst a. now rewrite pystr_eqb_refl in E.
Qed.

Lemma getitem_fold_set {V : Type} (f : pystr -> V) (keys : list pystr)
      (k : pystr) :
  In k keys ->
  getitem (fold_left (fun d k => dict_set d k (f k)) keys []) k = inr (f k).
Proof.
  intros H. unfold getitem. rewrite dict_get_fold_set.
  now rewrite (proj2 (existsb_pystr_In k keys) H).
Qed.

Lemma with_children_nil (e : element) : with_children e [] = e.
Proof. destruct e. unfold with_children. cbn. now rewrite app_nil_r. Qed.

Lemma with_children_append (e : element) (cs : list element) (c : element) :
  append (with_children e cs) c = with_children e (cs ++ [c]).
Proof. unfold append, with_children. cbn. now rewrite app_assoc. Qed.

Lemma fold_left_append {B : Type} (f : element -> B -> element)
      (h : B -> element) (l : list B) :
  (forall e b, f e b = append e (h b)) ->
  forall e, fold_left f l e = with_children e (map h l).
Proof.
  intros Hf. induction l as [|b l IH] using rev_ind; intros e.
  - cbn. now rewrite with_children_nil.
  - rewrite fold_left_app, map_app. cbn. now rewrite Hf, IH, with_children_append.
Qed.

Lemma foldM_append {B : Type} (f : element -> B -> result element)
      (h : B -> element) (l : list B) :
  (forall e b, In b l -> f e b = inr (append e (h b))) ->
  forall e, foldM f l e = inr (with_children e (map h l)).
Proof.
  induction l as [|b l IH]; intros Hf e; cbn [foldM map].
  - now rewrite with_children_nil.
  - rewrite Hf by (now left). rewrite IH by (intros; apply Hf; now right).
    f_equal. unfold with_children, append. cbn. now rewrite <- app_assoc.
Qed.

(** ** The loops build the closed form *)

Section Shape.
Context {rt : Runtime}.

Lemma xml_col_cell (row_el : element) (name fb_type : pystr) (val : value) :
  xml_col row_el name fb_type val = append row_el (cell name fb_type val).
Proof.
  destruct val; cbn [xml_col cell]; try apply set_last_text_SubElement.
  - reflexivity.
  - destruct (utf8_decode b); apply set_last_text_SubElement.
Qed.

Lemma schema_column_element (pk_cols : list pystr) (e : element)
      (col : column) :
  schema_column pk_cols e col = append e (column_element pk_cols col).
Proof.
  unfold schema_column, column_element, SubElement, Element.
  destruct (col_not_null col), (existsb (pystr_eqb (col_name col)) pk_cols);
    reflexivity.
Qed.

Lemma data_row_element (columns : list column) (e : element) (r : row) :
  data_row columns e r = append e (row_element columns r).
Proof.
  unfold data_row, row_element.
  rewrite (fold_left_append _
             (fun col => cell (col_name col) (col_fb_type col)
                              (row_get r (col_name col))))
    by (intros; apply xml_col_cell).
  reflexivity.
Qed.

Lemma generate_xml_tree_document (conn : connection) (data : dict (list row))
      (source now : pystr) :
  generate_xml_tree conn data source now
  = inr (document conn data source now).
Proof.
  unfold generate_xml_tree.
  cbv zeta.
  match goal with
  | |- context [fold_left ?f (dict_keys data) []] =>
    set (col_meta := fold_left f (dict_keys data) [])
  end.
  assert (Hmeta : forall k, In k (dict_keys data) ->
                            getitem col_meta k = inr (get_table_columns conn k))
    by (intros k Hk; apply (getitem_fold_set (get_table_columns conn)), Hk).
  rewrite (foldM_append _ (schema_table_element conn)).
  2:{ intros e tn Hin. unfold schema_table. rewrite Hmeta by assumption.
      rewrite (fold_left_append _ (column_element (get_primary_key conn tn)))
        by (intros; apply schema_column_element).
      rewrite (fold_left_append _ fk_element) by reflexivity.
      reflexivity. }
  rewrite (foldM_append _ (data_table_element conn)).
  2:{ intros e [tn rows] Hin. unfold data_table.
      rewrite Hmeta by (apply in_map_iff; now exists (tn, rows)).
      rewrite (fold_left_append _ (row_element (get_table_columns conn tn)))
        by (intros; apply data_row_element).
      reflexivity. }
  unfold document, schema_element, data_element, generators_elements.
  destruct (get_generators conn) as [|g gens] eqn:G.
  - reflexivity.
  - rewrite (fold_left_append _ generator_element) by reflexivity.
    reflexivity.
Qed.

End Shape.

(** ** The null marker *)

Section NullMarker.
Context {rt : Runtime}.

(** In the written text too a null cell differs from every other cell of
    the same column, the empty string included: after the [type]
    attribute a null cell goes on with [ null=], any other cell with
    [ />], [>] or [ enc=]. *)
Lemma null_cell_serialization (name fb_type : pystr) (val : value) :
  val <> VNone ->
  serialize_xml (cell name fb_type VNone)
  <> serialize_xml (cell name fb_type val).
Proof.
  intros Hval H.
  assert (P : forall at_ tx,
             at_ = [] \/ at_ = [(lit "enc", lit "base64")] ->
             serialize_xml
               (mkElement (lit "col")
                  ([(lit "name", name); (lit "type", fb_type)]
                     ++ [(lit "null", lit "true")]) None None [])
             <> serialize_xml
                  (mkElement (lit "col")
                     ([(lit "name", name); (lit "type", fb_type)] ++ at_)
                     (Some tx) None [])).
  { intros at_ tx Hat E.
    cbn [serialize_xml] in E. rewrite !flat_map_app in E.
    rewrite <- !app_assoc in E.
    do 3 apply app_inv_head in E.
    destruct Hat as [-> | ->]; [destruct tx|]; discriminate E. }
  destruct val; cbn [cell] in H;
    try (now apply (P [] _ (or_introl eq_refl)) in H).
  - now apply Hval.
  - destruct (utf8_decode b).
    + now apply (P [] _ (or_introl eq_refl)) in H.
    + now apply (P _ _ (or_intror eq_refl)) in H.
Qed.

Lemma append_inv (e c c' : element) : append e c = append e c' -> c = c'.
Proof.
  unfold append. intros [= H]. apply app_inv_head in H. congruence.
Qed.

(** C5. A null cell is emitted as a [col] element with the attribute
    [null="true"] and no text; a cell of any other value is emitted
    without a [null] attribute and with a text, which may be empty. The
    marker keeps a null apart from every other value of the column, the
    empty string included, in the tree and in the text written for it. *)
Theorem xml_col_null :
  forall (row_el : element) (name fb_type : pystr) (val : value),
    exists col,
      xml_col row_el name fb_type val = append row_el col
      /\ tag col = lit "col" /\ children col = []
      /\ attr "name" col = Some name /\ attr "type" col = Some fb_type
      /\ match val with
         | VNone =>
           attr "null" col = Some (lit "true") /\ text col = None
           /\ forall row_el' val' col',
               val' <> VNone ->
               xml_col row_el' name fb_type val' = append row_el' col' ->
               serialize_xml col <> serialize_xml col'
         | _ => attr "null" col = None /\ text col = Some (safe_str val)
         end.
Proof.
  intros row_el name fb_type val.
  exists (cell name fb_type val).
  split; [apply xml_col_cell|].
  destruct val; cbn [cell safe_str]; try (now repeat split).
  - repeat split. intros row_el' val' col' Hval H.
    rewrite xml_col_cell in H. apply append_inv in H. subst col'.
    now apply null_cell_serialization.
  - destruct (utf8_decode b); now repeat split.
Qed.

End NullMarker.

(** ** Reading the document *)

Lemma filter_map_all {A B : Type} (p : B -> bool) (f : A -> B) (l : list A) :
  (forall x, p (f x) = true) -> filter p (map f l) = map f l.
Proof.
  intros H. induction l as [|a l IH]; cbn; [reflexivity|].
  now rewrite H, IH.
Qed.

Lemma filter_map_none {A B : Type} (p : B -> bool) (f : A -> B) (l : list A) :
  (forall x, p (f x) = false) -> filter p (map f l) = [].
Proof.
  intros H. induction l as [|a l IH]; cbn; [reflexivity|].
  now rewrite H, IH.
Qed.

Lemma Forall2_map_same {A B C : Type} (R : B -> C -> Prop) (f : A -> B)
      (g : A -> C) (l : list A) :
  (forall x, In x l -> R (f x) (g x)) -> Forall2 R (map f l) (map g l).
Proof.
  induction l as [|a l IH]; intros H; cbn; constructor.
  - apply H. now left.
  - apply IH. intros x Hx. apply H. now right.
Qed.

Section Reading.
Context {rt : Runtime}.

Lemma attr_name_cell (name fb_type : pystr) (val : value) :
  attr "name" (cell name fb_type val) = Some name.
Proof.
  destruct val; try reflexivity.
  cbn [cell]. destruct (utf8_decode b); reflexivity.
Qed.

Lemma tag_cell (name fb_type : pystr) (val : value) :
  tag_is "col" (cell name fb_type val) = true.
Proof.
  destruct val; try reflexivity.
  cbn [cell]. destruct (utf8_decode b); reflexivity.
Qed.

Lemma findall_generators_generators (conn : connection) :
  findall "table" (mkElement [] [] None None (generators_elements conn)) = []
  /\ filter (tag_is "generators") (generators_elements conn)
     = generators_elements conn.
Proof.
  unfold generators_elements, findall.
  destruct (get_generators conn); split; reflexivity.
Qed.

Lemma findall_table_schema (conn : connection) (data : dict (list row)) :
  findall "table" (schema_element conn data)
  = map (schema_table_element conn) (dict_keys data).
Proof.
  unfold findall, schema_element. cbn [children].
  rewrite filter_app, filter_map_all by reflexivity.
  destruct (findall_generators_generators conn) as [H _].
  unfold findall in H. cbn [children] in H. now rewrite H.
Qed.

Lemma findall_generators_schema (conn : connection) (data : dict (list row)) :
  findall "generators" (schema_element conn data) = generators_elements conn.
Proof.
  unfold findall, schema_element. cbn [children].
  rewrite filter_app, filter_map_none by reflexivity.
  destruct (findall_generators_generators conn) as [_ H].
  now rewrite H, app_nil_r.
Qed.

Lemma tag_column_element (pk_cols : list pystr) (col : column) :
  tag (column_element pk_cols col) = lit "column".
Proof. reflexivity. Qed.

Lemma findall_column_schema_table (conn : connection) (tn : pystr) :
  findall "column" (schema_table_element conn tn)
  = map (column_element (get_primary_key conn tn)) (get_table_columns conn tn).
Proof.
  unfold findall, schema_table_element. cbn [children].
  rewrite filter_app, filter_map_all, filter_map_none by reflexivity.
  apply app_nil_r.
Qed.

Lemma findall_fk_schema_table (conn : connection) (tn : pystr) :
  findall "fk" (schema_table_element conn tn)
  = map fk_element (get_foreign_keys conn tn).
Proof.
  unfold findall, schema_table_element. cbn [children].
  now rewrite filter_app, filter_map_none, filter_map_all by reflexivity.
Qed.

Lemma findall_row_data_table (conn : connection) (item : pystr * list row) :
  findall "row" (data_table_element conn item)
  = children (data_table_element conn item).
Proof.
  unfold findall, data_table_element. cbn [children].
  now rewrite filter_map_all by reflexivity.
Qed.

Lemma attr_name_column_element (pk_cols : list pystr) (col : column) :
  attr "name" (column_element pk_cols col) = Some (col_name col).
Proof. reflexivity. Qed.

Lemma attr_pk_column_element (pk_cols : list pystr) (col : column) :
  attr "pk" (column_element pk_cols col)
  = if existsb (pystr_eqb (col_name col)) pk_cols
    then Some (lit "true") else None.
Proof.
  unfold column_element.
  destruct (col_not_null col), (existsb (pystr_eqb (col_name col)) pk_cols);
    reflexivity.
Qed.

Lemma attr_notnull_column_element (pk_cols : list pystr) (col : column) :
  attr "notnull" (column_element pk_cols col)
  = if col_not_null col then Some (lit "true") else None.
Proof.
  unfold column_element.
  destruct (col_not_null col), (existsb (pystr_eqb (col_name col)) pk_cols);
    reflexivity.
Qed.

(** C2. In the assembled document the schema section and the data
    section list the tables in the same order, and in every row of a
    table the [col] elements carry, in order and in number, the names of
    the [column] elements of that table's schema, whatever the key order
    of the row mapping; a column whose name the row mapping lacks is
    emitted with [null="true"] and no text. *)
Theorem data_columns_follow_schema :
  forall (conn : connection) (data : dict (list row)) (source now : pystr),
  exists root schema_el data_el,
    generate_xml_tree conn data source now = inr root
    /\ children root = [schema_el; data_el]
    /\ Forall2
         (fun ts td =>
            attr "name" ts = attr "name" td
            /\ Forall
                 (fun row_el =>
                    forallb (tag_is "col") (children row_el) = true
                    /\ map (attr "name") (children row_el)
                       = map (attr "name") (findall "column" ts))
                 (children td))
         (findall "table" schema_el) (children data_el)
    /\ Forall2
         (fun item td =>
            Forall2
              (fun r row_el =>
                 Forall
                   (fun c =>
                      forall n,
                        attr "name" c = Some n -> dict_get r n = None ->
                        attr "null" c = Some (lit "true") /\ text c = None)
                   (children row_el))
              (snd item) (children td))
         data (children data_el).
Proof.
  intros conn data source now.
  exists (document conn data source now), (schema_element conn data),
    (data_element conn data).
  split; [apply generate_xml_tree_document|].
  split; [reflexivity|].
  split.
  - rewrite findall_table_schema. unfold dict_keys, data_element.
    cbn [children]. rewrite map_map.
    apply Forall2_map_same. intros [tn rows] _. cbn [fst].
    split; [reflexivity|].
    unfold data_table_element. cbn [children fst snd].
    apply Forall_map, Forall_forall. intros r _.
    unfold row_element. cbn [children]. split.
    + apply forallb_forall. intros c (col & <- & _)%in_map_iff.
      apply tag_cell.
    + rewrite findall_column_schema_table, !map_map.
      apply map_ext. intros col. now rewrite attr_name_cell.
  - unfold data_element. cbn [children].
    rewrite <- (map_id data) at 1.
    apply Forall2_map_same. intros [tn rows] _.
    unfold data_table_element. cbn [children fst snd].
    rewrite <- (map_id rows) at 1.
    apply Forall2_map_same. intros r _.
    unfold row_element. cbn [children].
    apply Forall_map, Forall_forall. intros col _ n Hn Hr.
    rewrite attr_name_cell in Hn. apply Some_inj in Hn. subst n.
    unfold row_get. rewrite Hr. split; reflexivity.
Qed.

(** C10. In the data section the [count] attribute of a table element is
    the number of its [row] children; they are its only children, one
    per row read for the table. *)
Theorem table_count_is_row_count :
  forall (conn : connection) (data : dict (list row)) (source now : pystr),
  exists root schema_el data_el,
    generate_xml_tree conn data source now = inr root
    /\ children root = [schema_el; data_el]
    /\ Forall2
         (fun item td =>
            attr "name" td = Some (fst item)
            /\ attr "count" td
               = Some (str_int (Z.of_nat (List.length (findall "row" td))))
            /\ findall "row" td = children td
            /\ List.length (findall "row" td) = List.length (snd item))
         data (children data_el).
Proof.
  intros conn data source now.
  exists (document conn data source now), (schema_element conn data),
    (data_element conn data).
  split; [apply generate_xml_tree_document|].
  split; [reflexivity|].
  unfold data_element. cbn [children].
  rewrite <- (map_id data) at 1.
  apply Forall2_map_same. intros item _.
  rewrite findall_row_data_table.
  unfold data_table_element. cbn [children].
  rewrite length_map. now repeat split.
Qed.

(** C8. Metadata that is absent leaves nothing behind in the schema
    section: there is no [generators] element when the database has no
    generator (and one that is present is not empty), a column outside
    the primary key has no [pk] attribute, a nullable column has no
    [notnull] attribute, and a table has as many [fk] elements as
    foreign keys, so none when it has none. A table element has no child
    besides its columns and foreign keys. *)
Theorem absent_metadata_is_omitted :
  forall (conn : connection) (data : dict (list row)) (source now : pystr),
  exists root schema_el data_el,
    generate_xml_tree conn data source now = inr root
    /\ children root = [schema_el; data_el]
    /\ (get_generators conn = [] -> findall "generators" schema_el = [])
    /\ Forall (fun g => children g <> []) (findall "generators" schema_el)
    /\ children schema_el
       = findall "generators" schema_el ++ findall "table" schema_el
    /\ Forall2
         (fun tn ts =>
            (get_foreign_keys conn tn = [] -> findall "fk" ts = [])
            /\ List.length (findall "fk" ts)
               = List.length (get_foreign_keys conn tn)
            /\ children ts = findall "column" ts ++ findall "fk" ts
            /\ Forall2
                 (fun col cel =>
                    (~ In (col_name col) (get_primary_key conn tn) ->
                     attr "pk" cel = None)
                    /\ (In (col_name col) (get_primary_key conn tn) ->
                        attr "pk" cel = Some (lit "true"))
                    /\ (col_not_null col = false -> attr "notnull" cel = None))
                 (get_table_columns conn tn) (findall "column" ts))
         (dict_keys data) (findall "table" schema_el).
Proof.
  intros conn data source now.
  exists (document conn data source now), (schema_element conn data),
    (data_element conn data).
  split; [apply generate_xml_tree_document|].
  split; [reflexivity|].
  rewrite findall_generators_schema, findall_table_schema.
  split; [|split; [|split]].
  - unfold generators_elements. now intros ->.
  - unfold generators_elements.
    destruct (get_generators conn); repeat constructor. discriminate.
  - reflexivity.
  - rewrite <- (map_id (dict_keys data)) at 1.
    apply Forall2_map_same. intros tn _.
    rewrite findall_fk_schema_table, findall_column_schema_table.
    split; [now intros ->|].
    split; [apply length_map|].
    split; [reflexivity|].
    rewrite <- (map_id (get_table_columns conn tn)) at 1.
    apply Forall2_map_same. intros col _.
    rewrite attr_pk_column_element, attr_notnull_column_element.
    destruct (existsb (pystr_eqb (col_name col)) (get_primary_key conn tn))
      eqn:E.
    + apply existsb_pystr_In in E. repeat split; try tauto.
      now intros ->.
    + repeat split; try tauto.
      * intros H. apply existsb_pystr_In in H. congruence.
      * now intros ->.
Qed.

End Reading.

(** ** The written file *)

Lemma encode_xmlcharrefreplace_app (a b : pystr) :
  encode_xmlcharrefreplace (a ++ b)
  = encode_xmlcharrefreplace a ++ encode_xmlcharrefreplace b.
Proof. apply flat_map_app. Qed.

Lemma serialize_attr_eq (k v : pystr) :
  serialize_attr (k, v)
  = lit " " ++ k ++ lit "=" ++ [34%N] ++ escape_attrib v ++ [34%N].
Proof. reflexivity. Qed.

(** The value of an element's last attribute appears once in its
    serialization, escaped, between two strings that do not depend on
    it. *)
Lemma serialize_xml_last_attr (tg k v : pystr) (at_ : dict pystr)
      (tx tl : option pystr) (ch : list element) :
  serialize_xml (mkElement tg (at_ ++ [(k, v)]) tx tl ch)
  = before_last_attr tg at_ k ++ escape_attrib v
      ++ after_last_attr tg tx tl ch.
Proof.
  unfold before_last_attr, after_last_attr.
  cbn [serialize_xml]. rewrite flat_map_app. cbn [flat_map].
  rewrite serialize_attr_eq, app_nil_r, <- !app_assoc. reflexivity.
Qed.

Section Written.
Context {rt : Runtime}.

(** Indenting touches neither the root's attributes nor anything below
    it that could hold the clock reading. *)
Lemma indent_document (conn : connection) (data : dict (list row))
      (source now : pystr) :
  indent (document conn data source now)
  = mkElement (lit "database")
              ([(lit "source", source)] ++ [(lit "exported", now)])
              (text (indent (document conn data source [])))
              None
              (children (indent (document conn data source []))).
Proof. reflexivity. Qed.

(** What a call of [generate_xml] does: it writes the indented document
    when the file can be opened and raises [OSError] otherwise. *)
Lemma generate_xml_outcome (conn : connection) (data : dict (list row))
      (source output_path now : pystr) (w : world) :
  generate_xml conn data source output_path now w
  = if fs_writable w output_path
    then (inr (count_elements (indent (document conn data source now)) - 1),
          {| fs_writable := fs_writable w;
             fs_files :=
               dict_set (fs_files w) output_path
                 (write_xml (indent (document conn data source now)));
             session_open := session_open w |})
    else (inl OSError, w).
Proof.
  unfold generate_xml, bind, lift, write_file, ret.
  rewrite generate_xml_tree_document.
  destruct (fs_writable w output_path); reflexivity.
Qed.

(** C7. The file [generate_xml] writes depends on the clock only through
    the value of the root's [exported] attribute: for a fixed catalog,
    row data and source name there are two byte strings, the same for
    every clock reading, between which the escaped timestamp stands in
    the output. Two runs on the same input therefore write the same
    bytes once the timestamp is taken out, and report the same element
    count. *)
Theorem generate_xml_reproducible :
  forall (conn : connection) (data : dict (list row))
         (source output_path : pystr),
  exists (pre suf : bytes) (total : nat),
    forall (now : pystr) (w : world),
      generate_xml conn data source output_path now w
      = if fs_writable w output_path
        then (inr total,
              {| fs_writable := fs_writable w;
                 fs_files :=
                   dict_set (fs_files w) output_path
                     (pre ++ encode_xmlcharrefreplace (escape_attrib now)
                          ++ suf);
                 session_open := session_open w |})
        else (inl OSError, w).
Proof.
  intros conn data source output_path.
  set (fixed := indent (document conn data source [])).
  exists (encode_xmlcharrefreplace
            (lit "<?xml version='1.0' encoding='UTF-8'?>" ++ [10%N]
             ++ before_last_attr (lit "database") [(lit "source", source)]
                                 (lit "exported"))).
  exists (encode_xmlcharrefreplace
            (after_last_attr (lit "database") (text fixed) None
                             (children fixed))).
  exists (count_elements fixed - 1).
  intros now w.
  rewrite generate_xml_outcome, indent_document. fold fixed.
  destruct (fs_writable w output_path); [|reflexivity].
  unfold write_xml. rewrite serialize_xml_last_attr.
  rewrite !app_assoc, !encode_xmlcharrefreplace_app, <- !app_assoc.
  reflexivity.
Qed.

(** ** The run *)

Lemma connect_embedded_outcome (attempts : list (option connection))
      (w : world) :
  connect_embedded attempts w = (inl (SystemExit 1), w)
  \/ exists conn,
      connect_embedded attempts w
      = (inr conn,
         {| fs_writable := fs_writable w;
            fs_files := fs_files w;
            session_open := true |}).
Proof.
  induction attempts as [|[conn|] attempts IH]; cbn [connect_embedded].
  - now left.
  - right. now exists conn.
  - exact IH.
Qed.

(** C9, as stated, fails: the database opens, the output file cannot be
    written, [generate_xml] raises, and the run ends with the session
    still open. *)
Lemma main_leaves_session_open :
  fst (@main plain_runtime true [None; Some account_db] (lit "a.fdb")
             (lit "a.xml") (lit "2024-01-01T00:00:00") read_only_world)
  = inl OSError
  /\ session_open
       (snd (@main plain_runtime true [None; Some account_db] (lit "a.fdb")
                   (lit "a.xml") (lit "2024-01-01T00:00:00")
                   read_only_world))
     = true.
Proof. split; reflexivity. Qed.

(** C9, amended. [main] closes the session on the path on which reading,
    assembly and writing all succeed, and only there: a run that ends
    normally leaves the session closed; a run ended by [sys.exit(1)]
    (input file missing, or no client library that connects) never opened
    one; a run ended by any other exception has opened the session and
    leaves it open, as [conn.close()] is not reached. *)
Theorem main_session_at_exit :
  forall (fdb_exists : bool) (attempts : list (option connection))
         (source xml_path now : pystr) (w : world),
    session_open (snd (main fdb_exists attempts source xml_path now w))
    = match fst (main fdb_exists attempts source xml_path now w) with
      | inr _ => false
      | inl (SystemExit _) => session_open w
      | inl _ => true
      end.
Proof.
  intros fdb_exists attempts source xml_path now w.
  unfold main. destruct fdb_exists; [|reflexivity].
  cbn [negb]. unfold bind.
  destruct (connect_embedded_outcome attempts w) as [-> | (conn & ->)];
    [reflexivity|].
  rewrite generate_xml_outcome. cbn [fs_writable].
  destruct (fs_writable w xml_path); reflexivity.
Qed.

End Written.

(** ** The examples of the specification *)

Example xml_col_invalid_utf8 :
  @xml_col plain_runtime (Element (lit "row") []) (lit "B") (lit "BLOB SUB_TYPE BINARY")
           (VBytes [Byte.xff; Byte.xfe])
  = mkElement (lit "row") [] None None
      [mkElement (lit "col")
         [(lit "name", lit "B"); (lit "type", lit "BLOB SUB_TYPE BINARY");
          (lit "enc", lit "base64")]
         (Some (lit "//4=")) None []].
Proof. reflexivity. Qed.

Example xml_col_valid_utf8 :
  @xml_col plain_runtime (Element (lit "row") []) (lit "B") (lit "BLOB SUB_TYPE TEXT")
           (VBytes (map byte_of (lit "hello  ")))
  = mkElement (lit "row") [] None None
      [mkElement (lit "col")
         [(lit "name", lit "B"); (lit "type", lit "BLOB SUB_TYPE TEXT")]
         (Some (lit "hello")) None []].
Proof. reflexivity. Qed.

(** The rows of [account_db] arrive keyed [NAME, ID, BALANCE]; the
    document lists every row as [ID, BALANCE, NAME], as the schema does. *)
Example account_rows_in_schema_order :
  match @generate_xml_tree plain_runtime account_db
          (read_all_tables account_db) (lit "a.fdb") (lit "now") with
  | inr (mkElement _ _ _ _ [schema_el; data_el]) =>
    map (fun td => map (fun r => map (attr "name") (children r)) (children td))
        (children data_el)
  | _ => []
  end
  = [[ [Some (lit "ID"); Some (lit "BALANCE"); Some (lit "NAME")];
       [Some (lit "ID"); Some (lit "BALANCE"); Some (lit "NAME")] ]].
Proof. reflexivity. Qed.

(* ================================================================== *)
(** * Further properties *)
(* ================================================================== *)

(** ** More on the type mapper *)

(** X1. Without a numeric subtype (subtype absent, 0, or anything but 1
    and 2) the three integer codes map to the plain integer types,
    whatever precision and scale say. *)
Theorem get_fb_type_no_numeric_subtype :
  forall (ft : Z) (sub len prec scale cl : option Z),
    In ft [7; 8; 16]%Z -> ~ In (or0 sub) [1; 2]%Z ->
    get_fb_type (Some ft) sub len prec scale cl
    = if (ft =? 7)%Z then lit "SMALLINT"
      else if (ft =? 8)%Z then lit "INTEGER" else lit "BIGINT".
Proof.
  intros ft sub len prec scale cl Hft Hsub.
  unfold get_fb_type.
  replace (existsb (Z.eqb (or0 sub)) [1; 2]%Z) with false.
  - rewrite andb_false_r.
    cbn in Hft. destruct Hft as [<- | [<- | [<- | []]]]; reflexivity.
  - symmetry. apply not_true_is_false. intros H.
    apply existsb_exists in H as (x & Hx & E). apply Z.eqb_eq in E.
    now subst x.
Qed.

Lemma get_fb_type_no_numeric_subtype_witness :
  get_fb_type (Some 8%Z) None (Some 4%Z) (Some 9%Z) (Some (-2)%Z) None
  = lit "INTEGER".
Proof.
  refine (get_fb_type_no_numeric_subtype 8 None (Some 4%Z) (Some 9%Z)
            (Some (-2)%Z) None (or_intror (or_introl eq_refl)) _).
  cbn. intros [H | [H | []]]; discriminate H.
Defined.

Lemma app_last_inj {A : Type} (l l' : list A) (a b : A) :
  l ++ [a] = l' ++ [b] -> a = b.
Proof. intros H. now apply app_inj_tail in H. Qed.

(** The annotated fallback for a type code. *)
Lemma fallback_ends_in_slash (ft : option Z) :
  lit "VARCHAR(255) /* unknown fb type " ++ fmt_int ft ++ lit " */"
  = (lit "VARCHAR(255) /* unknown fb type " ++ fmt_int ft ++ lit " *")
      ++ [47%N].
Proof. rewrite <- !app_assoc. reflexivity. Qed.

(** X2. The mapper answers with the annotated fallback for unrecognized
    codes only: no recognized type code is ever reported as unknown,
    whatever its other fields. *)
Theorem get_fb_type_unknown_iff :
  forall (ft sub len prec scale cl : option Z),
    get_fb_type ft sub len prec scale cl
    = lit "VARCHAR(255) /* unknown fb type " ++ fmt_int ft ++ lit " */"
    <-> in_ints ft recognized_codes = false.
Proof.
  intros ft sub len prec scale cl. split.
  - destruct (in_ints ft recognized_codes) eqn:R; [|reflexivity].
    intros E. exfalso.
    unfold in_ints, recognized_codes in R.
    apply existsb_exists in R as (k & Hk & Ek).
    destruct ft as [z|]; [|discriminate Ek].
    cbn [eq_int] in Ek. apply Z.eqb_eq in Ek. subst z.
    unfold get_fb_type in E.
    cbn in Hk.
    repeat (destruct Hk as [<- | Hk]); [.. | destruct Hk];
      cbn [in_ints eq_int existsb Z.eqb Pos.eqb orb andb] in E;
      try (rewrite fallback_ends_in_slash in E;
           change (lit ")") with [41%N] in E;
           rewrite app_assoc in E; apply app_last_inj in E; discriminate E);
      repeat match type of E with
             | context [if ?c then _ else _] => destruct c
             end;
      cbn in E; discriminate E.
  - intros H. unfold recognized_codes in H.
    repeat match type of H with
           | in_ints _ (_ :: _) = false =>
             apply in_ints_cons_false in H; let E := fresh "E" in
             destruct H as [E H]
           end.
    unfold get_fb_type, in_ints. cbn [existsb].
    rewrite E, E0, E1, E2, E3, E4, E5, E6, E7, E8, E9, E10.
    reflexivity.
Qed.

(** ** Reading rows *)

Lemma lstrip_fixed (s : pystr) :
  match s with
  | c :: _ => py_isspace c = false
  | [] => True
  end -> lstrip s = s.
Proof. destruct s as [|c s]; cbn; [reflexivity | now intros ->]. Qed.

Lemma lstrip_idempotent (s : pystr) : lstrip (lstrip s) = lstrip s.
Proof.
  apply lstrip_fixed. destruct (lstrip_spec s) as (_ & _ & _ & H). exact H.
Qed.

Lemma rstrip_idempotent (s : pystr) : rstrip (rstrip s) = rstrip s.
Proof.
  unfold rstrip. now rewrite rev_involutive, lstrip_idempotent.
Qed.

Section Rows.
Context {rt : Runtime}.

(** Trimming a text cell when it is read does not change what is
    written for it. *)
Lemma xml_col_after_reader_strip :
  forall (row_el : element) (name fb_type s : pystr),
    xml_col row_el name fb_type (VStr (rstrip s))
    = xml_col row_el name fb_type (VStr s).
Proof.
  intros row_el name fb_type s. cbn [xml_col safe_str].
  now rewrite rstrip_idempotent.
Qed.

(** X3. A bytes cell that holds UTF-8 text is written exactly as the
    text cell with that text: same attributes, same trimmed text. *)
Theorem xml_col_text_bytes :
  forall (row_el : element) (name fb_type s : pystr) (b : bytes),
    utf8_encode s = Some b ->
    xml_col row_el name fb_type (VBytes b)
    = xml_col row_el name fb_type (VStr s).
Proof.
  intros row_el name fb_type s b H. apply utf8_encode_decode in H.
  cbn [xml_col safe_str]. now rewrite H.
Qed.

(** X21. For a text value [safe_str] removes trailing white space and
    nothing else: the value is the result followed by white space only,
    and the result does not end in white space; leading and inner white
    space stay. *)
Theorem safe_str_text_trims_right :
  forall (s : pystr),
  exists ws,
    s = safe_str (VStr s) ++ ws
    /\ all_space ws = true
    /\ forall t c, safe_str (VStr s) = t ++ [c] -> py_isspace c = false.
Proof. intros s. cbn [safe_str]. apply rstrip_spec. Qed.

End Rows.

Lemma xml_col_text_bytes_witness :
  @xml_col plain_runtime (Element (lit "row") []) (lit "N") (lit "BLOB SUB_TYPE TEXT")
           (VBytes [Byte.xc3; Byte.xa9; Byte.x20])
  = @xml_col plain_runtime (Element (lit "row") []) (lit "N")
             (lit "BLOB SUB_TYPE TEXT") (VStr [233%N; 32%N]).
Proof.
  exact (@xml_col_text_bytes plain_runtime (Element (lit "row") []) (lit "N")
           (lit "BLOB SUB_TYPE TEXT") [233%N; 32%N]
           [Byte.xc3; Byte.xa9; Byte.x20] eq_refl).
Defined.

(** ** Dictionaries filled by a loop *)

Lemma find_app_first {A : Type} (p : A -> bool) (l l' : list A) :
  find p (l ++ l')
  = match find p l with
    | Some x => Some x
    | None => find p l'
    end.
Proof.
  induction l as [|a l IH]; cbn [app find]; [reflexivity|].
  destruct (p a); [reflexivity | exact IH].
Qed.

Lemma fold_left_pointwise {A B : Type} (f g : A -> B -> A) (l : list B) :
  (forall a b, f a b = g a b) ->
  forall a, fold_left f l a = fold_left g l a.
Proof.
  intros H. induction l as [|b l IH]; intros a; cbn; [reflexivity|].
  now rewrite H, IH.
Qed.

Lemma map_fst_combine {A B : Type} (l : list A) (r : list B) :
  List.length l = List.length r -> map fst (combine l r) = l.
Proof.
  revert r. induction l as [|a l IH]; intros [|b r] H; try discriminate;
    [reflexivity|].
  cbn. f_equal. apply IH. now injection H.
Qed.

Section FoldSet.
Context {B V : Type} (key : B -> pystr) (val : B -> V).

Lemma dict_get_fill (l : list B) : forall (d : dict V) (k : pystr),
  dict_get (dict_fill key val d l) k
  = match find (fun x => pystr_eqb (key x) k) (rev l) with
    | Some x => Some (val x)
    | None => dict_get d k
    end.
Proof.
  unfold dict_fill.
  induction l as [|a l IH]; intros d k; cbn [fold_left rev].
  - reflexivity.
  - rewrite IH, find_app_first.
    destruct (find _ (rev l)); [reflexivity|].
    cbn [find]. rewrite dict_get_set.
    destruct (pystr_eqb (key a) k); reflexivity.
Qed.

Lemma dict_keys_set (d : dict V) (k : pystr) (v : V) :
  dict_keys (dict_set d k v)
  = if existsb (pystr_eqb k) (dict_keys d) then dict_keys d
    else dict_keys d ++ [k].
Proof.
  unfold dict_keys.
  induction d as [|[k0 v0] d IH]; cbn [dict_set map existsb app].
  - reflexivity.
  - destruct (pystr_eqb k0 k) eqn:E; cbn [map fst].
    + apply pystr_eqb_eq in E. subst k0. now rewrite pystr_eqb_refl.
    + rewrite IH.
      destruct (pystr_eqb k k0) eqn:E'.
      * apply pystr_eqb_eq in E'. subst k0.
        now rewrite pystr_eqb_refl in E.
      * cbn [orb]. destruct (existsb _ (map fst d)); reflexivity.
Qed.

Lemma dict_keys_fill (l : list B) : forall (d : dict V),
  NoDup (dict_keys d ++ map key l) ->
  dict_keys (dict_fill key val d l) = dict_keys d ++ map key l.
Proof.
  unfold dict_fill.
  induction l as [|a l IH]; intros d H; cbn [fold_left map].
  - now rewrite app_nil_r.
  - assert (Hk : existsb (pystr_eqb (key a)) (dict_keys d) = false).
    { apply not_true_is_false. intros E. apply existsb_pystr_In in E.
      apply NoDup_remove_2 in H. apply H, in_or_app. now left. }
    rewrite IH; rewrite dict_keys_set, Hk, <- app_assoc; [reflexivity|].
    exact H.
Qed.

(** A dictionary filled from the empty one has each key once. *)
Lemma dict_keys_set_NoDup (d : dict V) (k : pystr) (v : V) :
  NoDup (dict_keys d) -> NoDup (dict_keys (dict_set d k v)).
Proof.
  intros H. rewrite dict_keys_set.
  destruct (existsb (pystr_eqb k) (dict_keys d)) eqn:E; [assumption|].
  apply NoDup_app; [assumption | repeat constructor; intros [] |].
  intros x Hx [<- | []].
  apply (proj2 (existsb_pystr_In _ _)) in Hx. congruence.
Qed.

Lemma dict_keys_fill_NoDup (l : list B) : forall (d : dict V),
  NoDup (dict_keys d) -> NoDup (dict_keys (dict_fill key val d l)).
Proof.
  unfold dict_fill. induction l as [|a l IH]; intros d H; cbn [fold_left].
  - assumption.
  - apply IH, dict_keys_set_NoDup, H.
Qed.

End FoldSet.

Lemma distinct_NoDup (l : list pystr) : distinct l = true -> NoDup l.
Proof.
  induction l as [|k l IH]; cbn [distinct]; intros H; constructor.
  - apply andb_true_iff in H as [H _]. apply negb_true_iff in H.
    intros Hin. apply (proj2 (existsb_pystr_In _ _)) in Hin. congruence.
  - apply IH. now apply andb_true_iff in H as [_ H].
Qed.

Lemma find_key_NoDup {B : Type} (key : B -> pystr) (l : list B) (x : B) :
  NoDup (map key l) -> In x l ->
  find (fun y => pystr_eqb (key y) (key x)) l = Some x.
Proof.
  induction l as [|a l IH]; intros Hn Hin; [destruct Hin|].
  cbn [map] in Hn. apply NoDup_cons_iff in Hn as [Ha Hn].
  cbn [find]. destruct Hin as [-> | Hin].
  - now rewrite pystr_eqb_refl.
  - destruct (pystr_eqb (key a) (key x)) eqn:E; [|now apply IH].
    apply pystr_eqb_eq in E. exfalso. apply Ha. rewrite E.
    now apply in_map.
Qed.

Lemma find_key_none {B : Type} (key : B -> pystr) (l : list B) (k : pystr) :
  ~ In k (map key l) -> find (fun y => pystr_eqb (key y) k) l = None.
Proof.
  induction l as [|a l IH]; intros H; [reflexivity|].
  cbn [find]. destruct (pystr_eqb (key a) k) eqn:E.
  - apply pystr_eqb_eq in E. exfalso. apply H. now left.
  - apply IH. intros Hin. apply H. now right.
Qed.

Lemma NoDup_map_fst_combine {A B : Type} (l : list A) (r : list B) :
  NoDup l -> NoDup (map fst (combine l r)).
Proof.
  revert r. induction l as [|a l IH]; intros r H; [constructor|].
  destruct r as [|b r]; [constructor|].
  apply NoDup_cons_iff in H as [Ha H].
  cbn. constructor; [|now apply IH].
  intros Hin. apply Ha. apply in_map_iff in Hin as ([a' b'] & <- & Hin).
  now apply in_combine_l in Hin.
Qed.

Lemma nth_error_combine {A B : Type} (l : list A) (r : list B) (i : nat)
      (a : A) (b : B) :
  nth_error l i = Some a -> nth_error r i = Some b ->
  In (a, b) (combine l r).
Proof.
  revert l r. induction i as [|i IH]; intros [|x l] [|y r] Ha Hb;
    try discriminate.
  - cbn in *. left. congruence.
  - cbn in *. right. now apply IH.
Qed.

Section ReadRows.
Context {rt : Runtime}.

Lemma read_row_fill (col_names : list pystr) (raw : list value) :
  read_row col_names raw
  = dict_fill fst (fun cv => reader_strip (snd cv)) []
              (combine col_names raw).
Proof.
  unfold read_row, dict_fill. apply fold_left_pointwise.
  intros d [k v]. cbn [fst snd]. destruct v; reflexivity.
Qed.

(** X4. With distinct column names in the cursor description, the row
    mapping of a fetched record holds, under each name, the value at the
    name's position: unchanged, or without its trailing white space when
    it is a text. *)
Theorem read_row_lookup :
  forall (col_names : list pystr) (raw : list value) (i : nat)
         (c : pystr) (v : value),
    NoDup col_names ->
    nth_error col_names i = Some c -> nth_error raw i = Some v ->
    dict_get (read_row col_names raw) c = Some (reader_strip v).
Proof.
  intros col_names raw i c v Hn Hc Hv.
  rewrite read_row_fill, dict_get_fill.
  pose proof (find_key_NoDup fst (rev (combine col_names raw)) (c, v)) as F.
  cbn [fst] in F. rewrite F.
  - reflexivity.
  - rewrite map_rev. apply NoDup_rev. now apply NoDup_map_fst_combine.
  - apply in_rev. rewrite rev_involutive.
    now apply (nth_error_combine _ _ i).
Qed.

(** X5. A name outside the cursor description is not a key of the row
    mapping, so [row.get] answers [None] for it and the cell is written
    as a null. *)
Theorem read_row_missing :
  forall (col_names : list pystr) (raw : list value) (c : pystr),
    ~ In c col_names ->
    dict_get (read_row col_names raw) c = None
    /\ row_get (read_row col_names raw) c = VNone.
Proof.
  intros col_names raw c H.
  assert (E : dict_get (read_row col_names raw) c = None).
  { rewrite read_row_fill, dict_get_fill, find_key_none; [reflexivity|].
    rewrite map_rev, <- in_rev. intros ([a b] & <- & Hin)%in_map_iff.
    apply H. now apply in_combine_l in Hin. }
  split; [exact E|]. unfold row_get. now rewrite E.
Qed.

(** X6. With distinct column names and a record that has a value for each,
    the keys of the row mapping are the column names, in the order of
    the cursor description. *)
Theorem read_row_keys :
  forall (col_names : list pystr) (raw : list value),
    NoDup col_names -> List.length col_names = List.length raw ->
    dict_keys (read_row col_names raw) = col_names.
Proof.
  intros col_names raw Hn Hl.
  rewrite read_row_fill, dict_keys_fill.
  - cbn [dict_keys map app]. now apply map_fst_combine.
  - cbn [dict_keys map app]. now apply NoDup_map_fst_combine.
Qed.

(** The cell of a fetched value is the cell of the raw value. *)
Lemma xml_col_reader_strip (row_el : element) (name fb_type : pystr)
      (v : value) :
  xml_col row_el name fb_type (reader_strip v)
  = xml_col row_el name fb_type v.
Proof.
  destruct v; try reflexivity. apply xml_col_after_reader_strip.
Qed.

End ReadRows.

Lemma read_row_lookup_witness :
  dict_get (@read_row plain_runtime [lit "NAME"; lit "ID"]
                      [VStr (lit "Bob "); VInt 1])
           (lit "NAME")
  = Some (VStr (lit "Bob")).
Proof.
  exact (@read_row_lookup plain_runtime [lit "NAME"; lit "ID"]
            [VStr (lit "Bob "); VInt 1] 0 (lit "NAME") (VStr (lit "Bob "))
            (distinct_NoDup [lit "NAME"; lit "ID"] eq_refl) eq_refl eq_refl).
Defined.

Lemma read_row_missing_witness :
  row_get (@read_row plain_runtime [lit "NAME"; lit "ID"]
                     [VStr (lit "Bob "); VInt 1])
          (lit "BALANCE")
  = VNone.
Proof.
  refine (proj2 (@read_row_missing plain_runtime [lit "NAME"; lit "ID"]
                   [VStr (lit "Bob "); VInt 1] (lit "BALANCE") _)).
  cbn. intros [H | [H | H]]; try discriminate H; exact H.
Defined.

Lemma read_row_keys_witness :
  dict_keys (@read_row plain_runtime [lit "NAME"; lit "ID"]
                       [VStr (lit "Bob "); VInt 1])
  = [lit "NAME"; lit "ID"].
Proof.
  exact (@read_row_keys plain_runtime [lit "NAME"; lit "ID"]
           [VStr (lit "Bob "); VInt 1] (distinct_NoDup [lit "NAME"; lit "ID"] eq_refl) eq_refl).
Defined.

Lemma dict_set_fresh {V : Type} (d : dict V) (k : pystr) (v : V) :
  ~ In k (dict_keys d) -> dict_set d k v = d ++ [(k, v)].
Proof.
  induction d as [|[k0 v0] d IH]; intros H; cbn [dict_set app].
  - reflexivity.
  - destruct (pystr_eqb k0 k) eqn:E.
    + apply pystr_eqb_eq in E. exfalso. apply H. now left.
    + rewrite IH; [reflexivity|]. intros Hin. apply H. now right.
Qed.

(** Filling a dictionary with keys that are new and distinct appends the
    entries in loop order. *)
Lemma dict_fill_fresh {B V : Type} (key : B -> pystr) (val : B -> V)
      (l : list B) : forall (d : dict V),
  NoDup (dict_keys d ++ map key l) ->
  dict_fill key val d l = d ++ map (fun x => (key x, val x)) l.
Proof.
  unfold dict_fill.
  induction l as [|a l IH]; intros d H; cbn [fold_left map].
  - now rewrite app_nil_r.
  - assert (Ha : ~ In (key a) (dict_keys d)).
    { apply NoDup_remove_2 in H. intros Hin. apply H, in_or_app. now left. }
    rewrite dict_set_fresh by assumption.
    rewrite IH; [now rewrite <- app_assoc|].
    unfold dict_keys in *. rewrite map_app, <- app_assoc. exact H.
Qed.

Section ReadTables.
Context {rt : Runtime}.

(** The rows [read_all_tables] stores for a table. *)
Lemma read_all_tables_fill (conn : connection) :
  read_all_tables conn
  = dict_fill (fun t => t)
              (fun t => map (read_row (q_description conn t))
                            (q_select_all conn t))
              [] (get_user_tables conn).
Proof. reflexivity. Qed.

(** X7. [read_all_tables] has an entry for a name exactly when the name
    is a user table, and the entry holds one row mapping per fetched
    record, in fetch order. *)
Theorem read_all_tables_lookup :
  forall (conn : connection) (t : pystr),
    dict_get (read_all_tables conn) t
    = if existsb (pystr_eqb t) (get_user_tables conn)
      then Some (map (read_row (q_description conn t)) (q_select_all conn t))
      else None.
Proof.
  intros conn t. rewrite read_all_tables_fill. unfold dict_fill.
  apply (dict_get_fold_set
           (fun t => map (read_row (q_description conn t))
                         (q_select_all conn t))).
Qed.

(** X8. With distinct table names, [read_all_tables] lists the tables in
    the order of the catalog, each with its rows; so does every loop over
    the result. *)
Theorem read_all_tables_order :
  forall (conn : connection),
    NoDup (get_user_tables conn) ->
    read_all_tables conn
    = map (fun t => (t, map (read_row (q_description conn t))
                            (q_select_all conn t)))
          (get_user_tables conn).
Proof.
  intros conn H. rewrite read_all_tables_fill, dict_fill_fresh.
  - reflexivity.
  - cbn [dict_keys map app]. now rewrite map_id.
Qed.

(** X9. A value fetched at some position of a record is written under
    the column name the cursor gives that position, formatted from the
    raw value: looking the name up in the row mapping and formatting
    what is found gives the cell of the fetched value itself. *)
Theorem fetched_value_cell :
  forall (col_names : list pystr) (raw : list value) (i : nat)
         (c fb_type : pystr) (v : value) (row_el : element),
    NoDup col_names ->
    nth_error col_names i = Some c -> nth_error raw i = Some v ->
    xml_col row_el c fb_type (row_get (read_row col_names raw) c)
    = xml_col row_el c fb_type v.
Proof.
  intros col_names raw i c fb_type v row_el Hn Hc Hv.
  unfold row_get.
  rewrite read_row_fill, dict_get_fill.
  pose proof (find_key_NoDup fst (rev (combine col_names raw)) (c, v)) as F.
  cbn [fst] in F. rewrite F.
  - apply xml_col_reader_strip.
  - rewrite map_rev. apply NoDup_rev. now apply NoDup_map_fst_combine.
  - apply in_rev. rewrite rev_involutive.
    now apply (nth_error_combine _ _ i).
Qed.

(** X10. The element of a row depends on the row mapping only through
    the lookups of the table's column names: two mappings that agree on
    those names give the same [row] element, whatever their key order
    and whatever other keys they hold. *)
Theorem data_row_lookups_only :
  forall (columns : list column) (table_el : element) (r r' : row),
    (forall col, In col columns ->
                 dict_get r (col_name col) = dict_get r' (col_name col)) ->
    data_row columns table_el r = data_row columns table_el r'.
Proof.
  intros columns table_el r r' H.
  rewrite !data_row_element. f_equal. unfold row_element. f_equal.
  apply map_ext_in. intros col Hcol. unfold row_get.
  now rewrite (H col Hcol).
Qed.

End ReadTables.

Lemma read_all_tables_order_witness :
  @read_all_tables plain_runtime shop_db
  = [ (lit "CUSTOMER",
       [ [(lit "ID", VInt 1); (lit "NAME", VStr (lit "Ann"))];
         [(lit "ID", VInt 2); (lit "NAME", VStr (lit "Bob"))] ]);
      (lit "ORDERS", [ [(lit "ID", VInt 7)] ]) ].
Proof.
  exact (@read_all_tables_order plain_runtime shop_db
           (distinct_NoDup [lit "CUSTOMER"; lit "ORDERS"] eq_refl)).
Defined.

Lemma fetched_value_cell_witness :
  @xml_col plain_runtime (Element (lit "row") []) (lit "NAME")
           (lit "VARCHAR(50)")
           (row_get (@read_row plain_runtime [lit "NAME"; lit "ID"]
                               [VStr (lit "Bob "); VInt 1])
                    (lit "NAME"))
  = @xml_col plain_runtime (Element (lit "row") []) (lit "NAME")
             (lit "VARCHAR(50)") (VStr (lit "Bob ")).
Proof.
  exact (@fetched_value_cell plain_runtime [lit "NAME"; lit "ID"]
           [VStr (lit "Bob "); VInt 1] 0 (lit "NAME") (lit "VARCHAR(50)")
           (VStr (lit "Bob ")) (Element (lit "row") [])
           (distinct_NoDup [lit "NAME"; lit "ID"] eq_refl) eq_refl eq_refl).
Defined.

Lemma data_row_lookups_only_witness :
  @data_row plain_runtime ab_columns (Element (lit "table") []) ab_row
  = @data_row plain_runtime ab_columns (Element (lit "table") []) ba_row.
Proof.
  refine (@data_row_lookups_only plain_runtime ab_columns
            (Element (lit "table") []) ab_row ba_row _).
  intros col [<- | [<- | []]]; reflexivity.
Defined.

(** ** Connecting and running *)

Section Running.
Context {rt : Runtime}.

Lemma connect_embedded_skips (n : nat) (attempts : list (option connection))
      (w : world) :
  connect_embedded (repeat None n ++ attempts) w
  = connect_embedded attempts w.
Proof. induction n as [|n IH]; [reflexivity | exact IH]. Qed.

(** X11. [connect_embedded] skips the client libraries that fail to
    connect and returns the connection of the first one that succeeds,
    with the session open; the candidates after it are not tried. When
    every candidate fails (or none is found) it ends the process with
    status 1 and opens no session. *)
Theorem connect_embedded_first_success :
  forall (n : nat) (conn : connection) (rest : list (option connection))
         (w : world),
    connect_embedded (repeat None n ++ Some conn :: rest) w
    = (inr conn,
       {| fs_writable := fs_writable w;
          fs_files := fs_files w;
          session_open := true |})
    /\ connect_embedded (repeat None n) w = (inl (SystemExit 1), w).
Proof.
  intros n conn rest w. split.
  - now rewrite connect_embedded_skips.
  - rewrite <- (app_nil_r (repeat None n)).
    now rewrite connect_embedded_skips.
Qed.

(** X12. [main] ends with exit status 1, and leaves files and session as
    they were, when the input file does not exist or when no client
    library connects. *)
Theorem main_exit_1 :
  forall (attempts : list (option connection)) (n : nat)
         (source xml_path now : pystr) (w : world),
    main false attempts source xml_path now w = (inl (SystemExit 1), w)
    /\ main true (repeat None n) source xml_path now w
       = (inl (SystemExit 1), w).
Proof.
  intros attempts n source xml_path now w. split; [reflexivity|].
  unfold main, bind. cbn [negb].
  rewrite <- (app_nil_r (repeat None n)), connect_embedded_skips.
  reflexivity.
Qed.

(** X13. Once a client library connects, [main] reads the tables over
    that connection and, when the output file can be opened, ends
    normally with the session closed and the output file holding the
    indented serialization of the document of exactly those tables;
    other files are untouched. When the file cannot be opened the run
    ends with [OSError] and writes nothing. *)
Theorem main_writes_document :
  forall (n : nat) (conn : connection) (rest : list (option connection))
         (source xml_path now : pystr) (w : world),
    main true (repeat None n ++ Some conn :: rest) source xml_path now w
    = if fs_writable w xml_path
      then (inr tt,
            {| fs_writable := fs_writable w;
               fs_files :=
                 dict_set (fs_files w) xml_path
                   (write_xml
                      (indent (document conn (read_all_tables conn)
                                        source now)));
               session_open := false |})
      else (inl OSError,
            {| fs_writable := fs_writable w;
               fs_files := fs_files w;
               session_open := true |}).
Proof.
  intros n conn rest source xml_path now w.
  unfold main, bind. cbn [negb].
  rewrite connect_embedded_skips. cbn [connect_embedded]. unfold bind.
  cbn [set_session ret]. rewrite generate_xml_outcome. cbn [fs_writable].
  destruct (fs_writable w xml_path); reflexivity.
Qed.

End Running.

(** ** Counting elements *)

(** Induction over an element tree. *)
Lemma element_tree_ind (P : element -> Prop) :
  (forall tg at_ tx tl ch, Forall P ch -> P (mkElement tg at_ tx tl ch)) ->
  forall e, P e.
Proof.
  intros H. fix IH 1. intros [tg at_ tx tl ch]. apply H.
  induction ch as [|c ch IHch]; constructor; [apply IH | exact IHch].
Qed.

Lemma count_elements_set_tail (e : element) (t : pystr) :
  count_elements (set_tail e t) = count_elements e.
Proof. destruct e. reflexivity. Qed.

Lemma map_count_map_last (g : element -> element) (l : list element) :
  (forall x, count_elements (g x) = count_elements x) ->
  map count_elements (map_last g l) = map count_elements l.
Proof.
  intros H. induction l as [|a l IH]; [reflexivity|].
  cbn [map_last]. destruct l as [|b l]; cbn [map]; [now rewrite H|].
  cbn [map] in IH. now rewrite IH.
Qed.

Lemma count_elements_indent_children (e : element) :
  forall level, count_elements (indent_children level e) = count_elements e.
Proof.
  induction e as [tg at_ tx tl ch IH] using element_tree_ind.
  intros level. cbn [indent_children count_elements]. f_equal. f_equal.
  rewrite map_count_map_last.
  - rewrite map_map. apply map_ext_in. intros c Hc.
    rewrite Forall_forall in IH.
    assert (E : count_elements
                  match children c with
                  | [] => c
                  | _ :: _ => indent_children (S level) c
                  end = count_elements c)
      by (destruct (children c); [reflexivity | now apply IH]).
    destruct (blank _); [rewrite count_elements_set_tail|]; exact E.
  - intros x. destruct (blank (tail x));
      [apply count_elements_set_tail | reflexivity].
Qed.

(** Indenting adds and removes no element. *)
Lemma count_elements_indent (e : element) :
  count_elements (indent e) = count_elements e.
Proof.
  unfold indent. destruct (children e);
    [reflexivity | apply count_elements_indent_children].
Qed.

Lemma list_sum_map_leaves {A : Type} (f : A -> element) (l : list A) :
  (forall x, count_elements (f x) = 1) ->
  list_sum (map count_elements (map f l)) = List.length l.
Proof.
  intros H. unfold list_sum. induction l as [|a l IH]; [reflexivity|].
  cbn [map fold_right List.length]. now rewrite H, IH.
Qed.

Lemma list_sum_map_const {A : Type} (f : A -> nat) (k : nat) (l : list A) :
  (forall x, f x = k) -> list_sum (map f l) = List.length l * k.
Proof.
  intros H. unfold list_sum. induction l as [|a l IH]; [reflexivity|].
  cbn [map fold_right List.length]. rewrite H, IH. lia.
Qed.

Lemma list_sum_cons (a : nat) (l : list nat) :
  list_sum (a :: l) = a + list_sum l.
Proof. reflexivity. Qed.

Section Counting.
Context {rt : Runtime}.

Lemma count_cell (name fb_type : pystr) (val : value) :
  count_elements (cell name fb_type val) = 1.
Proof.
  destruct val; try reflexivity.
  cbn [cell]. destruct (utf8_decode b); reflexivity.
Qed.

Lemma count_row_element (columns : list column) (r : row) :
  count_elements (row_element columns r) = S (List.length columns).
Proof.
  unfold row_element. cbn [count_elements]. f_equal.
  apply (list_sum_map_leaves
           (fun col => cell (col_name col) (col_fb_type col)
                            (row_get r (col_name col)))).
  intros col. apply count_cell.
Qed.

Lemma count_data_table_element (conn : connection)
      (item : pystr * list row) :
  count_elements (data_table_element conn item)
  = S (List.length (snd item)
       * S (List.length (get_table_columns conn (fst item)))).
Proof.
  unfold data_table_element. cbn [count_elements]. f_equal.
  rewrite map_map. apply list_sum_map_const.
  intros r. apply count_row_element.
Qed.

Lemma count_schema_table_element (conn : connection) (tn : pystr) :
  count_elements (schema_table_element conn tn)
  = S (List.length (get_table_columns conn tn)
       + List.length (get_foreign_keys conn tn)).
Proof.
  unfold schema_table_element. cbn [count_elements]. f_equal.
  rewrite map_app, list_sum_app.
  rewrite !list_sum_map_leaves by reflexivity. reflexivity.
Qed.

Lemma count_generators_elements (conn : connection) :
  list_sum (map count_elements (generators_elements conn))
  = match get_generators conn with
    | [] => 0
    | gens => S (List.length gens)
    end.
Proof.
  unfold generators_elements.
  destruct (get_generators conn) as [|g gens]; [reflexivity|].
  set (gs := g :: gens).
  cbn [map count_elements]. rewrite list_sum_cons.
  rewrite (list_sum_map_leaves generator_element gs) by reflexivity.
  cbn [list_sum fold_right]. lia.
Qed.

Lemma count_document (conn : connection) (data : dict (list row))
      (source now : pystr) :
  count_elements (document conn data source now)
  = 3 + match get_generators conn with
        | [] => 0
        | gens => S (List.length gens)
        end
    + list_sum
        (map (fun tn =>
                S (List.length (get_table_columns conn tn)
                   + List.length (get_foreign_keys conn tn)))
             (dict_keys data))
    + list_sum
        (map (fun item =>
                S (List.length (snd item)
                   * S (List.length (get_table_columns conn (fst item)))))
             data).
Proof.
  unfold document, schema_element, data_element.
  cbn [count_elements map]. rewrite !list_sum_cons.
  rewrite map_app, list_sum_app, count_generators_elements, !map_map.
  rewrite (map_ext _ _ (count_schema_table_element conn)).
  rewrite (map_ext _ _ (count_data_table_element conn)).
  cbn [list_sum fold_right]. lia.
Qed.

(** X14. The element count [generate_xml] reports (every element but
    the root) is 2 for the [schema] and [data] sections, plus one per
    generator and one for their container when there is any generator,
    plus, per table, one schema element with one child per column and
    per foreign key, and one data element with one [row] per row and
    one [col] per row and column. Indentation does not change it. *)
Theorem generate_xml_element_count :
  forall (conn : connection) (data : dict (list row))
         (source output_path now : pystr) (w : world),
    fst (generate_xml conn data source output_path now w)
    = if fs_writable w output_path
      then inr (2 + match get_generators conn with
                    | [] => 0
                    | gens => S (List.length gens)
                    end
                + list_sum
                    (map (fun tn =>
                            S (List.length (get_table_columns conn tn)
                               + List.length (get_foreign_keys conn tn)))
                         (dict_keys data))
                + list_sum
                    (map (fun item =>
                            S (List.length (snd item)
                               * S (List.length
                                      (get_table_columns conn (fst item)))))
                         data))
      else inl OSError.
Proof.
  intros conn data source output_path now w.
  rewrite generate_xml_outcome.
  destruct (fs_writable w output_path); [|reflexivity].
  cbn [fst]. rewrite count_elements_indent, count_document.
  f_equal; lia.
Qed.

End Counting.

(** ** More on the schema section *)

Section Schema.
Context {rt : Runtime}.

Lemma attr_type_cell (name fb_type : pystr) (val : value) :
  attr "type" (cell name fb_type val) = Some fb_type.
Proof.
  destruct val; try reflexivity.
  cbn [cell]. destruct (utf8_decode b); reflexivity.
Qed.

(** X15. When the database has generators, the schema section starts
    with one [generators] element that holds one [generator] element per
    generator, in catalog order, with the generator's name and its value
    in decimal as attributes; the elements after it are the tables.
    Without generators there is no such element. *)
Theorem generators_section :
  forall (conn : connection) (data : dict (list row)) (source now : pystr),
  exists root schema_el data_el,
    generate_xml_tree conn data source now = inr root
    /\ children root = [schema_el; data_el]
    /\ match q_generators conn with
       | [] => findall "generators" schema_el = []
       | names =>
         exists rest,
           children schema_el
           = mkElement (lit "generators") [] None None
               (map (fun name =>
                       mkElement (lit "generator")
                         [(lit "name", name);
                          (lit "value", str_int (q_gen_id conn name))]
                         None None [])
                    names)
               :: rest
           /\ Forall (fun e => tag e = lit "table") rest
       end.
Proof.
  intros conn data source now.
  exists (document conn data source now), (schema_element conn data),
    (data_element conn data).
  split; [apply generate_xml_tree_document|].
  split; [reflexivity|].
  rewrite findall_generators_schema.
  unfold schema_element, generators_elements, get_generators.
  cbn [children].
  destruct (q_generators conn) as [|name names]; [reflexivity|].
  exists (map (schema_table_element conn) (dict_keys data)).
  split.
  - cbn [map app]. unfold generator_element. rewrite map_map. reflexivity.
  - apply Forall_map, Forall_forall. reflexivity.
Qed.

(** X16. The [column] elements of a table's schema follow the records of
    the catalog's column query one to one and in order: each carries the
    field name, the type string [get_fb_type] gives the record's type
    fields, and [notnull="true"] exactly when the record's null flag is
    1 (not when it is absent or any other number). *)
Theorem schema_columns_from_catalog :
  forall (conn : connection) (data : dict (list row)) (source now : pystr),
  exists root schema_el data_el,
    generate_xml_tree conn data source now = inr root
    /\ children root = [schema_el; data_el]
    /\ Forall2
         (fun tn ts =>
            Forall2
              (fun r cel =>
                 attr "name" cel = Some (rf_field_name r)
                 /\ attr "type" cel
                    = Some (get_fb_type (f_field_type r) (f_field_sub_type r)
                              (f_field_length r) (f_field_precision r)
                              (f_field_scale r) (f_character_length r))
                 /\ attr "notnull" cel
                    = match rf_null_flag r with
                      | Some 1%Z => Some (lit "true")
                      | _ => None
                      end)
              (q_relation_fields conn tn) (findall "column" ts))
         (dict_keys data) (findall "table" schema_el).
Proof.
  intros conn data source now.
  exists (document conn data source now), (schema_element conn data),
    (data_element conn data).
  split; [apply generate_xml_tree_document|].
  split; [reflexivity|].
  rewrite findall_table_schema.
  rewrite <- (map_id (dict_keys data)) at 1.
  apply Forall2_map_same. intros tn _.
  rewrite findall_column_schema_table. unfold get_table_columns.
  rewrite map_map, <- (map_id (q_relation_fields conn tn)) at 1.
  apply Forall2_map_same. intros r _.
  rewrite attr_notnull_column_element. cbn [col_not_null].
  repeat split.
  destruct (rf_null_flag r) as [[|[p|p|]|p]|]; reflexivity.
Qed.

(** X17. The [fk] elements of a table's schema follow the records of the
    foreign-key query one to one and in order: each carries the
    constraint name, the local column, and the referenced table and
    column joined as [TABLE(COLUMN)]. *)
Theorem schema_foreign_keys :
  forall (conn : connection) (data : dict (list row)) (source now : pystr),
  exists root schema_el data_el,
    generate_xml_tree conn data source now = inr root
    /\ children root = [schema_el; data_el]
    /\ Forall2
         (fun tn ts =>
            Forall2
              (fun r fel =>
                 attrib fel
                 = [(lit "name", fst (fst (fst r)));
                    (lit "column", snd (fst (fst r)));
                    (lit "references",
                     snd (fst r) ++ lit "(" ++ snd r ++ lit ")")]
                 /\ children fel = [] /\ text fel = None)
              (q_foreign_keys conn tn) (findall "fk" ts))
         (dict_keys data) (findall "table" schema_el).
Proof.
  intros conn data source now.
  exists (document conn data source now), (schema_element conn data),
    (data_element conn data).
  split; [apply generate_xml_tree_document|].
  split; [reflexivity|].
  rewrite findall_table_schema.
  rewrite <- (map_id (dict_keys data)) at 1.
  apply Forall2_map_same. intros tn _.
  rewrite findall_fk_schema_table. unfold get_foreign_keys.
  rewrite map_map, <- (map_id (q_foreign_keys conn tn)) at 1.
  apply Forall2_map_same. intros [[[r0 r1] r2] r3] _.
  now repeat split.
Qed.

(** X18. Every [col] element of a row repeats the type string of the
    schema [column] at the same position of its table. *)
Theorem data_types_follow_schema :
  forall (conn : connection) (data : dict (list row)) (source now : pystr),
  exists root schema_el data_el,
    generate_xml_tree conn data source now = inr root
    /\ children root = [schema_el; data_el]
    /\ Forall2
         (fun ts td =>
            Forall
              (fun row_el =>
                 map (attr "type") (children row_el)
                 = map (attr "type") (findall "column" ts))
              (children td))
         (findall "table" schema_el) (children data_el).
Proof.
  intros conn data source now.
  exists (document conn data source now), (schema_element conn data),
    (data_element conn data).
  split; [apply generate_xml_tree_document|].
  split; [reflexivity|].
  rewrite findall_table_schema. unfold dict_keys, data_element.
  cbn [children]. rewrite map_map.
  apply Forall2_map_same. intros [tn rows] _. cbn [fst].
  unfold data_table_element. cbn [children fst snd].
  apply Forall_map, Forall_forall. intros r _.
  unfold row_element. cbn [children].
  rewrite findall_column_schema_table, !map_map.
  apply map_ext. intros col. rewrite attr_type_cell.
  unfold column_element.
  destruct (col_not_null col),
    (existsb (pystr_eqb (col_name col)) (get_primary_key conn tn));
    reflexivity.
Qed.

End Schema.

(** ** base64 loses nothing *)

Section Base64.
Local Open Scope N_scope.

Lemma below_64 (i : N) :
  i < 64 -> In i (map N.of_nat (seq 0 64)).
Proof.
  intros H. rewrite <- (N2Nat.id i). apply in_map, in_seq. lia.
Qed.

Lemma b64_index_char (i : N) : i < 64 -> b64_index (b64_char i) = Some i.
Proof.
  intros H.
  assert (F : forallb (fun i => match b64_index (b64_char i) with
                                | Some j => j =? i
                                | None => false
                                end)
                      (map N.of_nat (seq 0 64)) = true)
    by (vm_compute; reflexivity).
  rewrite forallb_forall in F. specialize (F i (below_64 i H)).
  destruct (b64_index (b64_char i)) as [j|]; [|discriminate].
  apply N.eqb_eq in F. now subst.
Qed.

Lemma b64_char_not_pad (i : N) :
  i < 64 -> Byte.eqb (b64_char i) b64_pad = false.
Proof.
  intros H.
  assert (F : forallb (fun i => negb (Byte.eqb (b64_char i) b64_pad))
                      (map N.of_nat (seq 0 64)) = true)
    by (vm_compute; reflexivity).
  rewrite forallb_forall in F. specialize (F i (below_64 i H)).
  now apply negb_true_iff in F.
Qed.

Lemma b64_pad_is_pad : Byte.eqb b64_pad b64_pad = true.
Proof. reflexivity. Qed.

Lemma b64decode_encode_upto (n : nat) : forall bs,
  (List.length bs <= n)%nat -> b64decode (b64encode bs) = Some bs.
Proof.
  induction n as [|n IH]; intros [|x [|y [|z rest]]] Hn; cbn in Hn;
    try lia; try reflexivity;
    pose proof (Byte.to_N_bounded x) as Bx.
  - cbn [b64encode b64decode].
    rewrite !b64_index_char, b64_pad_is_pad by lia.
    cbv zeta. do 2 f_equal. apply byte_of_eq. lia.
  - pose proof (Byte.to_N_bounded y) as By.
    cbn [b64encode b64decode].
    rewrite !b64_index_char, b64_char_not_pad, b64_pad_is_pad by lia.
    cbv zeta. do 2 f_equal; [|f_equal]; apply byte_of_eq; lia.
  - pose proof (Byte.to_N_bounded y) as By.
    pose proof (Byte.to_N_bounded z) as Bz.
    cbn [b64encode b64decode app].
    rewrite !b64_index_char, !b64_char_not_pad by lia.
    cbv zeta. rewrite IH by lia. cbn [option_map].
    do 2 f_equal; [|f_equal; [|f_equal]]; apply byte_of_eq; lia.
Qed.

Lemma map_byte_of_ascii_decode (bs : bytes) :
  map byte_of (ascii_decode bs) = bs.
Proof.
  unfold ascii_decode. rewrite map_map.
  induction bs as [|b bs IH]; [reflexivity|].
  cbn [map]. now rewrite byte_of_of_to_N, IH.
Qed.

Lemma ascii_decode_inj (a b : bytes) :
  ascii_decode a = ascii_decode b -> a = b.
Proof.
  unfold ascii_decode. revert b.
  induction a as [|x a IH]; intros [|y b] H; try discriminate;
    [reflexivity|].
  cbn in H. injection H as Hxy Hab. f_equal; [|now apply IH].
  apply Some_inj. now rewrite <- !Byte.of_to_N, Hxy.
Qed.

End Base64.

Section Lossless.
Context {rt : Runtime}.

(** X19. The text [safe_str] gives a byte string that is not UTF-8 text
    is padded base64 that decodes to the byte string again. *)
Theorem binary_text_round_trip :
  forall (b : bytes),
    utf8_decode b = None ->
    b64decode (map byte_of (safe_str (VBytes b))) = Some b.
Proof.
  intros b H. cbn [safe_str]. rewrite H, map_byte_of_ascii_decode.
  apply (b64decode_encode_upto (List.length b)). lia.
Qed.

(** X20. Binary cells written as base64 lose nothing: two byte strings
    that are not UTF-8 text and get the same text from [safe_str] (and
    so from [xml_col]) are the same byte string. *)
Theorem binary_text_is_injective :
  forall (a b : bytes),
    utf8_decode a = None -> utf8_decode b = None ->
    safe_str (VBytes a) = safe_str (VBytes b) -> a = b.
Proof.
  intros a b Ha Hb. cbn [safe_str]. rewrite Ha, Hb. intros H.
  apply ascii_decode_inj in H.
  pose proof (b64decode_encode_upto (List.length a) a (le_n _)) as Ea.
  pose proof (b64decode_encode_upto (List.length b) b (le_n _)) as Eb.
  rewrite H in Ea. congruence.
Qed.

End Lossless.

Lemma binary_text_round_trip_witness :
  b64decode (map byte_of (@safe_str plain_runtime
                            (VBytes [Byte.xff; Byte.xfe])))
  = Some [Byte.xff; Byte.xfe].
Proof.
  exact (@binary_text_round_trip plain_runtime [Byte.xff; Byte.xfe]
           eq_refl).
Defined.

Lemma binary_text_is_injective_witness :
  [Byte.xff; Byte.xfe] = [Byte.xff; Byte.xfe].
Proof.
  exact (@binary_text_is_injective plain_runtime [Byte.xff; Byte.xfe]
           [Byte.xff; Byte.xfe] eq_refl eq_refl eq_refl).
Defined.
